(** * github-notifyd: the polling-and-dispatch pipeline

    A shallow embedding of [github-notifyd.c].  The daemon's globals
    ([server_caps], [last_mod]) and what it hands to its collaborators
    (syslog lines, notifications shown through libnotify, files created
    under /tmp) are fields of one explicit [state] that every function takes
    and returns.  What the outside world answers (libcurl transfers, the
    jansson decoder, the indeterminate content of an automatic variable) is
    gathered in a [world] record. *)

From Stdlib Require Import ZArith List String Ascii Bool Lia.
From Stdlib Require Import QArith_base DecimalString.
Import ListNotations.

Local Open Scope string_scope.
Local Open Scope Z_scope.

(** ** Constants of the source *)

Definition RESPONSE_CODE_OK : Z := 200.
Definition RESPONSE_CODE_NOT_MODIFIED : Z := 304.
Definition RESPONSE_CODE_UNAUTHORIZED : Z := 401.
Definition GITHUB_API_NOTIFICATIONS : string := "https://api.github.com/notifications".
Definition SUMMARY : string := "You have received a new GitHub Notification".

Definition BODY : string := "body".
Definition BODY_HYPERLINKS : string := "body-hyperlinks".
Definition BODY_MARKUP : string := "body-markup".
Definition PERSISTENCE : string := "persistence".

Definition TAG_BOLD : string := "<b>".
Definition TAG_BOLD_END : string := "</b>".

(** The C escapes [\t] and [\n]. *)
Definition TAB : string := String (ascii_of_nat 9) EmptyString.
Definition LF : string := String (ascii_of_nat 10) EmptyString.
Definition BR : string := "<br/>".

Definition AUTHORIZATION_ERROR : string :=
  "'github-notifyd' authorization error - please check access token value".
Definition UNDEFINED_ERROR : string :=
  "'github-notifyd' undefinded error - please check the logs for more information".

(** ** Data model *)

(** [notification]: every field but [user_avatar] is a [g_strdup]ed JSON
    string once the record reaches [notifications_list]; [user_avatar] is
    the path returned by [prepare_avatar] or NULL. *)
Record notification := {
  repository : string;
  repository_url : string;
  type : string;
  title : string;
  user : string;
  user_avatar : option string;
  reason : string
}.

(** The enum indexing [server_caps]. *)
Inductive cap := CAP_BODY | CAP_BODY_HYPERLINKS | CAP_BODY_MARKUP | CAP_PERSISTENCE.

(** The array [server_caps[]], one [gboolean] per [cap]. *)
Record caps := {
  cap_body : bool;
  cap_body_hyperlinks : bool;
  cap_body_markup : bool;
  cap_persistence : bool
}.

Definition caps_init : caps := Build_caps false false false false.

Definition get_cap (v : caps) (c : cap) : bool :=
  match c with
  | CAP_BODY => cap_body v
  | CAP_BODY_HYPERLINKS => cap_body_hyperlinks v
  | CAP_BODY_MARKUP => cap_body_markup v
  | CAP_PERSISTENCE => cap_persistence v
  end.

Definition set_cap (v : caps) (c : cap) (b : bool) : caps :=
  match c with
  | CAP_BODY => Build_caps b (cap_body_hyperlinks v) (cap_body_markup v) (cap_persistence v)
  | CAP_BODY_HYPERLINKS => Build_caps (cap_body v) b (cap_body_markup v) (cap_persistence v)
  | CAP_BODY_MARKUP => Build_caps (cap_body v) (cap_body_hyperlinks v) b (cap_persistence v)
  | CAP_PERSISTENCE => Build_caps (cap_body v) (cap_body_hyperlinks v) (cap_body_markup v) b
  end.

(** What [notify_get_server_info] stored in [name], [vendor], [version],
    [spec_version]. *)
Record server_info := {
  name : string;
  vendor : string;
  version : string;
  spec_version : string
}.

(** The command line switches read after startup. *)
Record options := {
  opt_no_avatar : bool;
  opt_persistent : bool
}.

(** A decoded jansson value.  An object keeps its members as a key/value
    list searched from the front. *)
#[warnings="-register-all"]
Inductive json :=
| JNull
| JTrue
| JFalse
| JInteger (z : Z)
| JReal (q : Q)
| JString (s : string)
| JArray (items : list json)
| JObject (members : list (string * json)).

(** Syslog priorities used by [print_log]. *)
Inductive priority := LOG_ERR | LOG_INFO.

(** The format strings given to [print_log], with their arguments. *)
Inductive message :=
| MsgCurlInitFailed
| MsgCurlPerformFailed (strerror : string)
| MsgServerRespondedWithCode (code : Z)
| MsgJsonError (line : Z) (text : string)
| MsgRootNotArray
| MsgNewNotification (repository type reason : string)
| MsgInvalidNotification
| MsgDownloadingAvatar
| MsgCannotPrepareAvatar
| MsgNoPersistentSupport
| MsgMinimalInterval
| MsgPollingInterval (seconds : Z).

Inductive urgency := NOTIFY_URGENCY_NORMAL | NOTIFY_URGENCY_CRITICAL.

(** What [notify_notification_show] receives: the three arguments of
    [notify_notification_new], the "transient" hint, and the urgency.  The
    timeout is NOTIFY_EXPIRES_DEFAULT on every path. *)
Record NotifyNotification := {
  nn_summary : string;
  nn_body : option string;
  nn_icon : option string;
  nn_transient : bool;
  nn_urgency : urgency
}.

(** The daemon's globals and its observable outputs, oldest entry first.
    [journal] holds the calls of [print_log] in the order they are made. *)
Record state := {
  server_caps : caps;
  last_mod : Z;
  tmp_files : list string;
  journal : list (priority * message);
  shown : list NotifyNotification
}.

(** [print_log (msg_priority, msg, ...)] records the call.  The source
    formats the line into a [GString] and then calls
    [syslog (msg_priority, log->str)]: the formatted line is itself the
    format of that second call, which has no argument after it.  Whether the
    call is one the C library defines is told by [syslog_defined] below; a
    state reached through a call that is not describes nothing the program is
    known to do. *)
Definition print_log (p : priority) (m : message) (st : state) : state :=
  Build_state (server_caps st) (last_mod st) (tmp_files st)
              (journal st ++ [(p, m)]) (shown st).

(** A format that needs no argument: every "%" in it starts "%%" or "%m".
    Any other conversion, and a "%" that ends the text, reads an argument
    that was not passed. *)
Fixpoint format_defined (format : string) : bool :=
  match format with
  | EmptyString => true
  | String c rest =>
      if Ascii.eqb c "%"%char
      then match rest with
           | String d rest' =>
               (Ascii.eqb d "%"%char || Ascii.eqb d "m"%char) && format_defined rest'
           | EmptyString => false
           end
      else format_defined rest
  end.

(** The texts a message copies into its line through "%s" from what the
    network sent: the feed's repository, type and reason, and the decoder's
    error text, which quotes its input.  The rest of a line is fixed text
    without "%", numbers printed by "%d", "%ld" and "%p", and the message of
    [curl_easy_strerror], one of libcurl's own texts.  Each copied text is
    followed by a space or a newline, so the line is a defined format
    exactly when each copied text is. *)
Definition message_texts (m : message) : list string :=
  match m with
  | MsgJsonError _ text => [text]
  | MsgNewNotification repository type reason => [repository; type; reason]
  | _ => []
  end.

(** The call [syslog (msg_priority, log->str)] made for [m] is defined. *)
Definition syslog_defined (m : message) : bool :=
  forallb format_defined (message_texts m).

(** Every line of the journal was a defined call. *)
Definition journal_defined (log : list (priority * message)) : bool :=
  forallb (fun entry => syslog_defined (snd entry)) log.

Definition notify_notification_show (n : NotifyNotification) (st : state) : state :=
  Build_state (server_caps st) (last_mod st) (tmp_files st)
              (journal st) (shown st ++ [n]).

Definition set_last_mod (t : Z) (st : state) : state :=
  Build_state (server_caps st) t (tmp_files st) (journal st) (shown st).

Definition set_server_cap (c : cap) (b : bool) (st : state) : state :=
  Build_state (set_cap (server_caps st) c b) (last_mod st) (tmp_files st)
              (journal st) (shown st).

Definition create_file (path : string) (st : state) : state :=
  Build_state (server_caps st) (last_mod st) (path :: tmp_files st)
              (journal st) (shown st).

(** How a libcurl transfer ends: [data] is what [write_callback] has
    gathered, the empty string when it was never called. *)
Inductive curl_outcome :=
| CurlInitFailed
| CurlPerformFailed (strerror : string)
| CurlPerformed (response_code : Z) (data : string) (filetime : Z).

(** How the transfer inside [prepare_avatar] ends. *)
Inductive avatar_transfer :=
| AvatarInitFailed
| AvatarPerformFailed (strerror : string)
| AvatarPerformed.

(** The collaborators of one run of [check_github_notifications]:
    - [feed_outcome]: the transfer for GITHUB_API_NOTIFICATIONS;
    - [comment_outcome json_cnt url]: the transfer issued for the array
      element at index [json_cnt];
    - [avatar_outcome json_cnt url]: the avatar transfer for that element;
    - [json_loads]: the jansson decoder;
    - [json_error]: the line and the text the decoder leaves in
      [json_error] for an input it rejects; the text quotes the input;
    - [return_code_init]: the content of the automatic variable
      [return_code], which the function never initialises. *)
Record world := {
  feed_outcome : curl_outcome;
  comment_outcome : nat -> string -> curl_outcome;
  avatar_outcome : nat -> string -> avatar_transfer;
  json_loads : string -> option json;
  json_error : string -> Z * string;
  return_code_init : Z
}.

(** ** jansson accessors *)

Fixpoint assoc (key : string) (members : list (string * json)) : option json :=
  match members with
  | [] => None
  | (k, v) :: rest => if String.eqb k key then Some v else assoc key rest
  end.

(** [json_object_get]: NULL when the value is not an object (or is NULL
    itself) or has no such member. *)
Definition json_object_get (j : option json) (key : string) : option json :=
  match j with
  | Some (JObject members) => assoc key members
  | _ => None
  end.

Definition json_is_object (j : option json) : bool :=
  match j with Some (JObject _) => true | _ => false end.

Definition json_is_string (j : option json) : bool :=
  match j with Some (JString _) => true | _ => false end.

Definition json_is_number (j : option json) : bool :=
  match j with Some (JInteger _) | Some (JReal _) => true | _ => false end.

Definition json_string_value (j : option json) : string :=
  match j with Some (JString s) => s | _ => "" end.

(** [(double) z] for a [json_int_t]: [z] itself when it fits the 53 bits of
    the significand, otherwise the nearest multiple of the unit in the last
    place, ties going to the even significand. *)
Definition double_of_integer (z : Z) : Z :=
  let a := Z.abs z in
  let e := Z.log2 a - 52 in
  if e <=? 0 then z
  else
    let ulp := 2 ^ e in
    let q := a / ulp in
    let r := a mod ulp in
    let half := ulp / 2 in
    let q := if r <? half then q
             else if half <? r then q + 1
             else if Z.even q then q else q + 1 in
    Z.sgn z * (q * ulp).

(** [(guint32) d] for a double with integral part [t].  C defines the
    conversion for [0 <= t < 2 ^ 32] only; outside that range the value is
    the one the x86-64 code gives, the low 32 bits of the 64-bit conversion,
    which is [0x8000000000000000] when [t] does not fit 64 bits. *)
Definition guint32_of_double (t : Z) : Z :=
  if (- 2 ^ 63 <=? t) && (t <? 2 ^ 63) then t mod 2 ^ 32 else 0.

(** [(guint32) json_number_value (obj)]: the number as a double (a JSON
    integer is converted, a JSON real is one already), truncated towards
    zero and converted to 32 bits. *)
Definition json_user_id_of (j : option json) : Z :=
  match j with
  | Some (JInteger z) => guint32_of_double (double_of_integer z)
  | Some (JReal q) => guint32_of_double (Z.quot (Qnum q) (Z.pos (Qden q)))
  | _ => 0
  end.

(** ** set_server_caps *)

(** [g_strcmp0 (a, b) == 0]. *)
Definition g_str_equal (a b : string) : bool := String.eqb a b.

Definition set_server_caps (data : string) (v : caps) : caps :=
  let v := if g_str_equal BODY data then set_cap v CAP_BODY true else v in
  let v := if g_str_equal BODY_HYPERLINKS data then set_cap v CAP_BODY_HYPERLINKS true else v in
  let v := if g_str_equal BODY_MARKUP data then set_cap v CAP_BODY_MARKUP true else v in
  let v := if g_str_equal PERSISTENCE data then set_cap v CAP_PERSISTENCE true else v in
  v.

(** [g_list_foreach (server_caps, set_server_caps, NULL)] in [main]. *)
Definition negotiate (advertised : list string) : caps :=
  fold_left (fun v data => set_server_caps data v) advertised caps_init.

(** ** curl_request *)

(** [curl_request (url, pass_ifmodsince, &code)].  [code] is the content of
    [*code] on entry; the result is the returned buffer (None for NULL), the
    content of [*code] on exit and the new state.  The url only selects the
    transfer, which the caller passes as [o].  The buffer is the text
    [write_callback] has gathered and terminated.  When the callback was
    never called the source returns the [malloc (1)] block as allocated,
    with no content and no terminator: the empty [data] stands for that
    block, and what a caller reads from it is not determined. *)
Definition curl_request (o : curl_outcome) (pass_ifmodsince : bool) (code : Z)
           (st : state) : option string * Z * state :=
  match o with
  | CurlInitFailed =>
      (None, code, print_log LOG_ERR MsgCurlInitFailed st)
  | CurlPerformFailed err =>
      (None, code, print_log LOG_ERR (MsgCurlPerformFailed err) st)
  | CurlPerformed response data filetime =>
      let code := response in
      if negb (code =? RESPONSE_CODE_OK) && negb (code =? RESPONSE_CODE_NOT_MODIFIED)
      then (None, code, print_log LOG_ERR (MsgServerRespondedWithCode code) st)
      else if pass_ifmodsince
           then if negb (code =? RESPONSE_CODE_NOT_MODIFIED)
                then (Some data, code, set_last_mod filetime st)
                else (None, code, st)
           else (Some data, code, st)
  end.

(** ** prepare_avatar *)

(** [asprintf (&path, "/tmp/%d.png", id)]: the [guint32] is printed by
    [%d], that is as a signed 32-bit integer. *)
Definition tmp_png_path (id : Z) : string :=
  let signed := if id <? 2 ^ 31 then id else id - 2 ^ 32 in
  "/tmp/" ++ NilZero.string_of_int (Z.to_int signed) ++ ".png".

Definition access_F_OK (path : string) (st : state) : bool :=
  existsb (String.eqb path) (tmp_files st).

(** [prepare_avatar (id, avatar_url)]: the cached path, or NULL when the
    download fails.  [fopen (path, "w")] creates the file before the
    transfer starts, and the error path leaves it in place.  [asprintf] is
    taken to succeed, like the other allocations of the program. *)
Definition prepare_avatar (o : avatar_transfer) (id : Z) (st : state)
  : option string * state :=
  let path := tmp_png_path id in
  if negb (access_F_OK path st)
  then
    let st := print_log LOG_INFO MsgDownloadingAvatar st in
    let st := create_file path st in
    match o with
    | AvatarPerformed => (Some path, st)
    | AvatarPerformFailed err =>
        (None, print_log LOG_ERR MsgCannotPrepareAvatar
                 (print_log LOG_ERR (MsgCurlPerformFailed err) st))
    | AvatarInitFailed =>
        (None, print_log LOG_ERR MsgCannotPrepareAvatar st)
    end
  else (Some path, st).

(** ** show_notification *)

Definition is_plasma_1_0 (info : server_info) : bool :=
  g_str_equal (name info) "Plasma" && g_str_equal (vendor info) "KDE"
  && g_str_equal (version info) "1.0".

Definition is_xfce_notifyd (info : server_info) : bool :=
  g_str_equal (name info) "Xfce Notify Daemon" && g_str_equal (vendor info) "Xfce".

(** The text accumulated in the [GString] [body], given the values of the
    locals [bold], [bold_end], [newline] and the capability array as it is
    when the body is built. *)
Definition body_text (bold bold_end newline : string) (v : caps)
           (notif : notification) : string :=
  if get_cap v CAP_BODY
  then
    (bold ++ "Repository:" ++ bold_end ++ TAB ++ " " ++ repository notif ++ newline)
    ++ (bold ++ "Type:" ++ bold_end ++ TAB ++ TAB ++ " " ++ type notif ++ newline)
    ++ (bold ++ "Title:" ++ bold_end ++ TAB ++ TAB ++ " " ++ title notif ++ newline)
    ++ (bold ++ "User:" ++ bold_end ++ TAB ++ TAB ++ " " ++ user notif)
    ++ (if get_cap v CAP_BODY_HYPERLINKS
        then newline ++ bold ++ "Link:" ++ bold_end ++ TAB ++ TAB
             ++ " <a href=" ++ repository_url notif ++ ">Link to Repository</a>"
        else "")
  else "".

Definition show_notification (info : server_info) (opts : options)
           (notif : notification) (st : state) : state :=
  let bold := if negb (get_cap (server_caps st) CAP_BODY_MARKUP) then "" else TAG_BOLD in
  let bold_end := if negb (get_cap (server_caps st) CAP_BODY_MARKUP) then "" else TAG_BOLD_END in
  let newline := if is_plasma_1_0 info then BR else LF in
  let st := if is_xfce_notifyd info
            then set_server_cap CAP_BODY_HYPERLINKS false st else st in
  let body := body_text bold bold_end newline (server_caps st) notif in
  let st := if negb (opt_persistent opts) then st
            else if negb (get_cap (server_caps st) CAP_PERSISTENCE)
                 then print_log LOG_INFO MsgNoPersistentSupport st else st in
  notify_notification_show
    {| nn_summary := SUMMARY;
       nn_body := Some body;
       nn_icon := user_avatar notif;
       nn_transient := negb (opt_persistent opts);
       nn_urgency := NOTIFY_URGENCY_NORMAL |} st.

(** ** check_github_notifications *)

(** One pass through the body of the [for] loop up to [goto skip] or the
    append: a computation on the local [return_code] and the state that
    either yields a value or jumps to [skip]. *)
Definition step (A : Type) : Type := Z -> state -> option A * Z * state.

Definition ret {A : Type} (a : A) : step A := fun rc st => (Some a, rc, st).

Definition goto_skip {A : Type} : step A := fun rc st => (None, rc, st).

Definition bind {A B : Type} (m : step A) (k : A -> step B) : step B :=
  fun rc st =>
    match m rc st with
    | (Some a, rc', st') => k a rc' st'
    | (None, rc', st') => (None, rc', st')
    end.

Notation "x <- m ;; k" := (bind m (fun x => k))
  (at level 61, m at next level, right associativity).

Definition expect_object (j : option json) : step unit :=
  if json_is_object j then ret tt else goto_skip.

Definition expect_string (j : option json) : step string :=
  if json_is_string j then ret (json_string_value j) else goto_skip.

Definition expect_number (j : option json) : step Z :=
  if json_is_number j then ret (json_user_id_of j) else goto_skip.

(** [curl_request (url, FALSE, &return_code)] inside the loop. *)
Definition request_comment (o : curl_outcome) : step string :=
  fun rc st => curl_request o false rc st.

(** [json_loads] of the comment, with its diagnostic. *)
Definition decode_comment (w : world) (curl_response : string) : step json :=
  fun rc st =>
    match json_loads w curl_response with
    | Some root => (Some root, rc, st)
    | None =>
        (None, rc,
         print_log LOG_ERR
           (MsgJsonError (fst (json_error w curl_response))
                         (snd (json_error w curl_response))) st)
    end.

Definition read_avatar (w : world) (opts : options) (json_cnt : nat)
           (json_user : option json) (json_user_id : Z) : step (option string) :=
  if negb (opt_no_avatar opts)
  then
    avatar_url <- expect_string (json_object_get json_user "avatar_url") ;;
    (fun rc st =>
       let '(path, st') :=
         prepare_avatar (avatar_outcome w json_cnt avatar_url) json_user_id st in
       (Some path, rc, st'))
  else ret None.

Definition read_notification (w : world) (opts : options) (json_cnt : nat)
           (element : json) : step notification :=
  let json_notification := Some element in
  _ <- expect_object json_notification ;;
  reason <- expect_string (json_object_get json_notification "reason") ;;
  let json_subject := json_object_get json_notification "subject" in
  _ <- expect_object json_subject ;;
  type <- expect_string (json_object_get json_subject "type") ;;
  title <- expect_string (json_object_get json_subject "title") ;;
  let json_repository := json_object_get json_notification "repository" in
  _ <- expect_object json_repository ;;
  repository <- expect_string (json_object_get json_repository "name") ;;
  repository_url <- expect_string (json_object_get json_repository "html_url") ;;
  url <- expect_string (json_object_get json_subject "latest_comment_url") ;;
  curl_response <- request_comment (comment_outcome w json_cnt url) ;;
  json_local_root <- decode_comment w curl_response ;;
  let json_user := json_object_get (Some json_local_root) "user" in
  _ <- expect_object json_user ;;
  user <- expect_string (json_object_get json_user "login") ;;
  json_user_id <- expect_number (json_object_get json_user "id") ;;
  user_avatar <- read_avatar w opts json_cnt json_user json_user_id ;;
  ret {| repository := repository;
         repository_url := repository_url;
         type := type;
         title := title;
         user := user;
         user_avatar := user_avatar;
         reason := reason |}.

(** The [for] loop over the array, from index [json_cnt] on. *)
Fixpoint iterate (w : world) (opts : options) (json_cnt : nat) (items : list json)
         (notifications_list : list notification) (rc : Z) (st : state)
  : list notification * Z * state :=
  match items with
  | [] => (notifications_list, rc, st)
  | element :: rest =>
      match read_notification w opts json_cnt element rc st with
      | (Some notif, rc', st') =>
          iterate w opts (S json_cnt) rest (notifications_list ++ [notif]) rc'
            (print_log LOG_INFO
               (MsgNewNotification (repository notif) (type notif) (reason notif)) st')
      | (None, rc', st') =>
          iterate w opts (S json_cnt) rest notifications_list rc'
            (print_log LOG_INFO MsgInvalidNotification st')
      end
  end.

(** [g_list_foreach (notifications_list, show_notification, NULL)]. *)
Definition show_all (info : server_info) (opts : options)
           (notifications_list : list notification) (st : state) : state :=
  fold_left (fun st notif => show_notification info opts notif st)
            notifications_list st.

Definition error_notification (summary : string) : NotifyNotification :=
  {| nn_summary := summary;
     nn_body := None;
     nn_icon := None;
     nn_transient := false;
     nn_urgency := NOTIFY_URGENCY_CRITICAL |}.

(** The code after the label [error]. *)
Definition error_exit (return_code : Z) (st : state) : state :=
  if return_code =? RESPONSE_CODE_NOT_MODIFIED then st
  else if return_code =? RESPONSE_CODE_UNAUTHORIZED
       then notify_notification_show (error_notification AUTHORIZATION_ERROR) st
       else notify_notification_show (error_notification UNDEFINED_ERROR) st.

Definition check_github_notifications (w : world) (info : server_info)
           (opts : options) (st : state) : state :=
  let return_code := return_code_init w in
  let '(curl_response, return_code, st) :=
    curl_request (feed_outcome w) true return_code st in
  match curl_response with
  | None => error_exit return_code st
  | Some text =>
      match json_loads w text with
      | None =>
          error_exit return_code
            (print_log LOG_ERR
               (MsgJsonError (fst (json_error w text)) (snd (json_error w text))) st)
      | Some (JArray items) =>
          let '(notifications_list, _, st) :=
            iterate w opts 0 items [] return_code st in
          show_all info opts notifications_list st
      | Some _ => error_exit return_code (print_log LOG_ERR MsgRootNotArray st)
      end
  end.

(** ** The polling interval in main *)

(** [opt_interval] is a [guint] that the option parser fills through a
    G_OPTION_ARG_INT entry: the [gint] given on the command line is stored
    into the unsigned variable. *)
Definition store_opt_interval (arg : Z) : Z := arg mod 2 ^ 32.

(** From "check polling interval value" to [g_timeout_add_seconds]: the
    period the timer is registered with, and the state. *)
Definition register_timer (opt_interval : Z) (st : state) : Z * state :=
  let '(opt_interval, st) :=
    if opt_interval <? 45
    then (45, print_log LOG_ERR MsgMinimalInterval st)
    else (opt_interval, st) in
  (opt_interval, print_log LOG_INFO (MsgPollingInterval opt_interval) st).

(** ** Vocabulary of the properties *)

(** [occurs needle s]: [needle] is a substring of [s]. *)
Definition occurs (needle s : string) : Prop :=
  exists pre post, s = pre ++ needle ++ post.

(** The same test, executable. *)
Fixpoint contains (needle s : string) : bool :=
  prefix needle s
  || match s with
     | EmptyString => false
     | String _ s' => contains needle s'
     end.

(** The ways to cut [n] into two non-empty parts. *)
Fixpoint splits (n : string) : list (string * string) :=
  match n with
  | EmptyString => []
  | String c n' =>
      match n' with
      | EmptyString => []
      | String _ _ =>
          (String c EmptyString, n')
            :: map (fun p => (String c (fst p), snd p)) (splits n')
      end
  end.

Fixpoint suffixb (s x : string) : bool :=
  String.eqb s x
  || match x with
     | EmptyString => false
     | String _ x' => suffixb s x'
     end.

(** [dangling n x]: [x] ends with a proper non-empty prefix of [n], so an
    occurrence of [n] could start inside [x] and end after it. *)
Definition dangling (n x : string) : bool :=
  existsb (fun p => suffixb (fst p) x) (splits n).

(** [leading n c]: a proper non-empty suffix of [n] starts with [c], so an
    occurrence of [n] could end inside a string that starts with [c]. *)
Definition leading (n : string) (c : ascii) : bool :=
  existsb (fun p => match snd p with
                    | String c' _ => Ascii.eqb c c'
                    | EmptyString => false
                    end) (splits n).

(** A body seen as a sequence of pieces: text fixed by the renderer
    ([Lit]), and text copied from the notification, either known not to
    contain the needle ([Fld]) or known not to contain the needle's first
    character ([Clean]). *)
Inductive piece :=
| Lit (s : string)
| Fld (s : string)
| Clean (s : string).

Definition piece_text (p : piece) : string :=
  match p with Lit s | Fld s | Clean s => s end.

Fixpoint flatten (ps : list piece) : string :=
  match ps with
  | [] => EmptyString
  | p :: rest => piece_text p ++ flatten rest
  end.

(** A sufficient, computable condition for the fixed text of [ps] to
    contribute no occurrence of [n], alone or across a boundary. *)
Fixpoint guarded (n : string) (ps : list piece) : bool :=
  match ps with
  | [] => true
  | Lit s :: rest => negb (contains n s) && negb (dangling n s) && guarded n rest
  | Fld _ :: rest =>
      match rest with
      | [] => true
      | Lit (String c _) :: _ => negb (leading n c) && guarded n rest
      | _ => false
      end
  | Clean _ :: rest => guarded n rest
  end.

(** The four fields that [show_notification] always copies into a body. *)
Definition fields_free (needle : string) (notif : notification) : Prop :=
  ~ occurs needle (repository notif) /\ ~ occurs needle (type notif)
  /\ ~ occurs needle (title notif) /\ ~ occurs needle (user notif).

(** The lines of a body, without any line break: the labels wrapped in bold
    tags when [markup] holds, and the link line when [hyperlinks] holds. *)
Definition body_lines (markup hyperlinks : bool) (notif : notification)
  : list string :=
  let b := if markup then "<b>" else "" in
  let e := if markup then "</b>" else "" in
  [ b ++ "Repository:" ++ e ++ TAB ++ " " ++ repository notif;
    b ++ "Type:" ++ e ++ TAB ++ TAB ++ " " ++ type notif;
    b ++ "Title:" ++ e ++ TAB ++ TAB ++ " " ++ title notif;
    b ++ "User:" ++ e ++ TAB ++ TAB ++ " " ++ user notif ]
  ++ (if hyperlinks
      then [ b ++ "Link:" ++ e ++ TAB ++ TAB ++ " <a href="
               ++ repository_url notif ++ ">Link to Repository</a>" ]
      else []).

(** The notification [show_notification] hands to libnotify. *)
Definition presented (opts : options) (body : string) (notif : notification)
  : NotifyNotification :=
  {| nn_summary := SUMMARY;
     nn_body := Some body;
     nn_icon := user_avatar notif;
     nn_transient := negb (opt_persistent opts);
     nn_urgency := NOTIFY_URGENCY_NORMAL |}.

(** ** Well-formed feed elements *)

Definition has_string (j : option json) (key : string) : bool :=
  json_is_string (json_object_get j key).

(** The element is an object with a string [reason], an object [subject]
    with strings [type] and [title], an object [repository] with strings
    [name] and [html_url], and a string [subject.latest_comment_url]. *)
Definition required_fields_present (element : json) : bool :=
  let e := Some element in
  let subject := json_object_get e "subject" in
  let repo := json_object_get e "repository" in
  json_is_object e
  && has_string e "reason"
  && json_is_object subject
  && has_string subject "type"
  && has_string subject "title"
  && json_is_object repo
  && has_string repo "name"
  && has_string repo "html_url"
  && has_string subject "latest_comment_url".

(** The url the enrichment request of an element goes to. *)
Definition comment_url (element : json) : string :=
  json_string_value
    (json_object_get (json_object_get (Some element) "subject") "latest_comment_url").

(** The decoded answer to the enrichment request of the element at index
    [json_cnt], when the transfer returns a buffer (status 200 or 304) that
    decodes. *)
Definition comment_root (w : world) (json_cnt : nat) (element : json) : option json :=
  match comment_outcome w json_cnt (comment_url element) with
  | CurlPerformed code data _ =>
      if (code =? RESPONSE_CODE_OK) || (code =? RESPONSE_CODE_NOT_MODIFIED)
      then json_loads w data else None
  | _ => None
  end.

Definition comment_user (w : world) (json_cnt : nat) (element : json) : option json :=
  json_object_get (comment_root w json_cnt element) "user".

(** A well-formed user object: a string [login], a numeric [id] and, when
    avatars are shown, a string [avatar_url]. *)
Definition well_formed_user (opts : options) (json_user : option json) : bool :=
  json_is_object json_user
  && has_string json_user "login"
  && json_is_number (json_object_get json_user "id")
  && (opt_no_avatar opts || has_string json_user "avatar_url").

(** A well-formed element: its required fields are present and its
    enrichment request succeeds with a well-formed user object.  Every other
    element is malformed. *)
Definition well_formed (w : world) (opts : options) (p : nat * json) : bool :=
  required_fields_present (snd p)
  && well_formed_user opts (comment_user w (fst p) (snd p)).

Definition malformed (w : world) (opts : options) (p : nat * json) : bool :=
  negb (well_formed w opts p).

(** The array elements with their indices, from [json_cnt] on. *)
Fixpoint enumerate_from (json_cnt : nat) (items : list json) : list (nat * json) :=
  match items with
  | [] => []
  | element :: rest => (json_cnt, element) :: enumerate_from (S json_cnt) rest
  end.

(** ** Defined runs *)

(** A buffer that [curl_request] returns for the transfer holds at least one
    received byte: it is not the [malloc (1)] block as allocated. *)
Definition buffer_defined (pass_ifmodsince : bool) (o : curl_outcome) : bool :=
  match o with
  | CurlPerformed code data _ =>
      if (code =? RESPONSE_CODE_OK)
         || ((code =? RESPONSE_CODE_NOT_MODIFIED) && negb pass_ifmodsince)
      then negb (String.eqb data "") else true
  | _ => true
  end.

(** The array the feed of a tick decodes to, if it does. *)
Definition feed_items (w : world) : list json :=
  match feed_outcome w with
  | CurlPerformed code text _ =>
      if code =? RESPONSE_CODE_OK
      then match json_loads w text with
           | Some (JArray items) => items
           | _ => []
           end
      else []
  | _ => []
  end.

(** The lines [st'] has logged since [st]. *)
Definition logged_since (st st' : state) : list (priority * message) :=
  skipn (List.length (journal st)) (journal st').

(** The tick stays within what C defines: no buffer it decodes is a block
    left as allocated, and every call of syslog it makes is defined.  Only
    then is the state computed for the tick what the program does. *)
Definition tick_defined (w : world) (info : server_info) (opts : options)
           (st : state) : bool :=
  buffer_defined true (feed_outcome w)
  && forallb (fun p => negb (required_fields_present (snd p))
                       || buffer_defined false
                            (comment_outcome w (fst p) (comment_url (snd p))))
             (enumerate_from 0 (feed_items w))
  && journal_defined (logged_since st (check_github_notifications w info opts st)).

(** What identifies a notification in a batch: every field but the avatar. *)
Definition notification_key (n : notification)
  : string * string * string * string * string * string :=
  (repository n, repository_url n, type n, title n, user n, reason n).

(** The same six texts read off a feed element and its enrichment. *)
Definition element_key (w : world) (p : nat * json)
  : string * string * string * string * string * string :=
  let e := Some (snd p) in
  let subject := json_object_get e "subject" in
  let repo := json_object_get e "repository" in
  (json_string_value (json_object_get repo "name"),
   json_string_value (json_object_get repo "html_url"),
   json_string_value (json_object_get subject "type"),
   json_string_value (json_object_get subject "title"),
   json_string_value (json_object_get (comment_user w (fst p) (snd p)) "login"),
   json_string_value (json_object_get e "reason")).

Definition is_invalid_notification (entry : priority * message) : bool :=
  match snd entry with MsgInvalidNotification => true | _ => false end.

(** The number of "invalid notification" lines in a journal. *)
Definition invalid_count (log : list (priority * message)) : nat :=
  List.length (filter is_invalid_notification log).

(** The state is the same but for journal lines other than "invalid
    notification" and files under /tmp. *)
Definition quiet (st st' : state) : Prop :=
  shown st' = shown st /\ server_caps st' = server_caps st
  /\ last_mod st' = last_mod st
  /\ invalid_count (journal st') = invalid_count (journal st).

(** The capability array once the Xfce exception has been applied. *)
Definition effective_caps (info : server_info) (v : caps) : caps :=
  if is_xfce_notifyd info then set_cap v CAP_BODY_HYPERLINKS false else v.

(** The body [show_notification] builds when the array holds [v] on entry. *)
Definition rendered_body (info : server_info) (v : caps) (notif : notification)
  : string :=
  body_text (if negb (get_cap v CAP_BODY_MARKUP) then "" else TAG_BOLD)
            (if negb (get_cap v CAP_BODY_MARKUP) then "" else TAG_BOLD_END)
            (if is_plasma_1_0 info then BR else LF)
            (effective_caps info v) notif.

(** A body without the link line, cut at the copied fields. *)
Definition plain_pieces (b e nl : string) (notif : notification) : list piece :=
  [ Lit (b ++ "Repository:" ++ e ++ TAB ++ " "); Fld (repository notif);
    Lit (nl ++ b ++ "Type:" ++ e ++ TAB ++ TAB ++ " "); Fld (type notif);
    Lit (nl ++ b ++ "Title:" ++ e ++ TAB ++ TAB ++ " "); Fld (title notif);
    Lit (nl ++ b ++ "User:" ++ e ++ TAB ++ TAB ++ " "); Fld (user notif) ].

(** A body with the link line.  The url is taken with the ">" that the
    renderer puts behind it, so that the text after it starts with a
    letter. *)
Definition link_pieces (b e nl : string) (notif : notification) : list piece :=
  (plain_pieces b e nl notif
   ++ [ Lit (nl ++ b ++ "Link:" ++ e ++ TAB ++ TAB ++ " <a href=");
        Fld (repository_url notif ++ ">");
        Lit "Link to Repository</a>" ])%list.

(** The body built under the capability array [v], cut at the copied
    texts. *)
Definition body_pieces (b e nl : string) (v : caps) (notif : notification)
  : list piece :=
  if get_cap v CAP_BODY
  then if get_cap v CAP_BODY_HYPERLINKS
       then link_pieces b e nl notif else plain_pieces b e nl notif
  else [].

(** The texts [show_notification] copies from the notification into the
    body it builds when the capability array, after the Xfce exception,
    holds [v]: the four fields and, when the link line is built, the
    repository url with the ">" that closes the anchor behind it. *)
Definition copied_texts (v : caps) (notif : notification) : list string :=
  if get_cap v CAP_BODY
  then ([repository notif; type notif; title notif; user notif]
        ++ (if get_cap v CAP_BODY_HYPERLINKS
            then [(repository_url notif ++ ">")%string] else []))%list
  else [].

(** ** Sample inputs *)

Definition gnome_shell : server_info :=
  {| name := "gnome-shell"; vendor := "GNOME"; version := "3.14.1"; spec_version := "1.2" |}.

Definition plasma_1_0 : server_info :=
  {| name := "Plasma"; vendor := "KDE"; version := "1.0"; spec_version := "1.1" |}.


Definition xfce_notifyd : server_info :=
  {| name := "Xfce Notify Daemon"; vendor := "Xfce"; version := "0.2.4"; spec_version := "0.9" |}.

Definition default_options : options :=
  {| opt_no_avatar := false; opt_persistent := false |}.

Definition no_avatar_options : options :=
  {| opt_no_avatar := true; opt_persistent := false |}.

Definition state_with (v : caps) : state :=
  {| server_caps := v; last_mod := 0; tmp_files := []; journal := []; shown := [] |}.

Definition all_caps : caps := Build_caps true true true true.

(** Body text only: no markup, no hyperlinks. *)
Definition text_only_caps : caps := Build_caps true false false false.

(** Body text and hyperlinks, no markup. *)
Definition no_markup_caps : caps := Build_caps true true false false.

Definition fix_bug : notification :=
  {| repository := "r"; repository_url := "http://x"; type := "PullRequest";
     title := "Fix bug"; user := "alice"; user_avatar := None; reason := "mention" |}.

(** A notification whose title quotes a bold tag. *)
Definition bold_in_title : notification :=
  {| repository := "r"; repository_url := "http://x"; type := "Issue";
     title := "Strip <b> from titles"; user := "alice"; user_avatar := None;
     reason := "subscribed" |}.

(** A notification whose title quotes an anchor. *)
Definition anchor_in_title : notification :=
  {| repository := "r"; repository_url := "http://x"; type := "Issue";
     title := "Escape <a href=x> in comments"; user := "alice"; user_avatar := None;
     reason := "subscribed" |}.

(** A feed of three elements: a pull request commented by alice, an
    element without [reason], and an issue commented by bob, whose user
    object has no [avatar_url]. *)
Definition pull_request_element : json :=
  JObject
    [ ("reason", JString "mention");
      ("subject", JObject [ ("type", JString "PullRequest");
                            ("title", JString "Fix bug");
                            ("latest_comment_url", JString "U") ]);
      ("repository", JObject [ ("name", JString "r");
                               ("html_url", JString "http://x") ]) ].

Definition no_reason_element : json :=
  JObject
    [ ("subject", JObject [ ("type", JString "Issue");
                            ("title", JString "Crash");
                            ("latest_comment_url", JString "U") ]);
      ("repository", JObject [ ("name", JString "r");
                               ("html_url", JString "http://x") ]) ].

Definition issue_element : json :=
  JObject
    [ ("reason", JString "subscribed");
      ("subject", JObject [ ("type", JString "Issue");
                            ("title", JString "Docs");
                            ("latest_comment_url", JString "V") ]);
      ("repository", JObject [ ("name", JString "s");
                               ("html_url", JString "http://y") ]) ].

Definition alice_comment : json :=
  JObject [ ("user", JObject [ ("login", JString "alice");
                               ("id", JInteger 7);
                               ("avatar_url", JString "http://a") ]) ].

Definition bob_comment : json :=
  JObject [ ("user", JObject [ ("login", JString "bob"); ("id", JInteger 8) ]) ].

Definition sample_items : list json :=
  [pull_request_element; no_reason_element; issue_element].

Definition sample_json_loads (text : string) : option json :=
  if String.eqb text "feed" then Some (JArray sample_items)
  else if String.eqb text "comment U" then Some alice_comment
  else if String.eqb text "comment V" then Some bob_comment
  else None.

(** The decoder quoting the input it stumbled on. *)
Definition sample_json_error (text : string) : Z * string :=
  (1, "invalid token near '" ++ text ++ "'").

Definition sample_comment_outcome (json_cnt : nat) (url : string) : curl_outcome :=
  if String.eqb url "U" then CurlPerformed 200 "comment U" (-1)
  else if String.eqb url "V" then CurlPerformed 200 "comment V" (-1)
  else CurlPerformFailed "Couldn't resolve host name".

(** A well-formed pull request whose reason carries printf conversions. *)
Definition directive_pull_request : json :=
  JObject
    [ ("reason", JString "%s%s%s%s%s%s%s%s");
      ("subject", JObject [ ("type", JString "PullRequest");
                            ("title", JString "Fix bug");
                            ("latest_comment_url", JString "U") ]);
      ("repository", JObject [ ("name", JString "r");
                               ("html_url", JString "http://x") ]) ].

(** The same reason on an issue commented by bob, whose user object has no
    [avatar_url]. *)
Definition directive_issue : json :=
  JObject
    [ ("reason", JString "%s%s%s%s%s%s%s%s");
      ("subject", JObject [ ("type", JString "Issue");
                            ("title", JString "Docs");
                            ("latest_comment_url", JString "V") ]);
      ("repository", JObject [ ("name", JString "s");
                               ("html_url", JString "http://y") ]) ].

Definition sample_world : world :=
  {| feed_outcome := CurlPerformed 200 "feed" 1414886400;
     comment_outcome := sample_comment_outcome;
     avatar_outcome := fun _ _ => AvatarPerformed;
     json_loads := sample_json_loads;
     json_error := sample_json_error;
     return_code_init := 0 |}.

(** The feed request answered by the given transfer, with [garbage] in the
    uninitialised [return_code]. *)
Definition world_with_feed (o : curl_outcome) (garbage : Z) : world :=
  {| feed_outcome := o;
     comment_outcome := sample_comment_outcome;
     avatar_outcome := fun _ _ => AvatarPerformed;
     json_loads := sample_json_loads;
     json_error := sample_json_error;
     return_code_init := garbage |}.

(** The feed answered 200 with a body that decodes to the array [items]. *)
Definition world_with_items (items : list json) : world :=
  {| feed_outcome := CurlPerformed 200 "feed" 1414886400;
     comment_outcome := sample_comment_outcome;
     avatar_outcome := fun _ _ => AvatarPerformed;
     json_loads := fun text => if String.eqb text "feed" then Some (JArray items)
                               else sample_json_loads text;
     json_error := sample_json_error;
     return_code_init := 0 |}.

From Stdlib Require DecimalZ DecimalPos.

(** ** write_callback *)

(** [struct data_struct]: the block [data] points to, byte by byte (None for
    NULL), and the number of bytes received so far. *)
Record data_struct := {
  data : option (list ascii);
  size : Z
}.

(** Arithmetic on [gsize]. *)
Definition gsize_wrap (n : Z) : Z := n mod 2 ^ 64.

(** [realloc (block, n)]: the first bytes of the old block are kept, the
    bytes past its end are whatever the allocator hands out. *)
Definition realloc (junk : ascii) (block : list ascii) (n : Z) : list ascii :=
  firstn (Z.to_nat n) (block ++ repeat junk (Z.to_nat n))%list.

(** [memcpy (&block[offset], src, n)]. *)
Definition memcpy_at (block : list ascii) (offset : Z) (src : list ascii) (n : Z)
  : list ascii :=
  (firstn (Z.to_nat offset) block
   ++ firstn (Z.to_nat n) src
   ++ skipn (Z.to_nat offset + Z.to_nat n) block)%list.

(** [block[index] = c], for an index inside the block. *)
Definition store_byte (block : list ascii) (index : Z) (c : ascii) : list ascii :=
  (firstn (Z.to_nat index) block ++ c :: skipn (S (Z.to_nat index)) block)%list.

(** Lines that [print_log] receives outside [check_github_notifications]
    and the functions it calls, next to the ones above. *)
Inductive program_message :=
| MsgDaemon (m : message)
| MsgNotEnoughMemory
| MsgFailedServerCaps
| MsgFailedServerInfo
| MsgNotificationServer (info : server_info)
| MsgCannotSetCallback
| MsgItsOver.

(** [write_callback (ptr, size, nmemb, userdata)]: the value returned to
    libcurl, the chunk, and the line logged if any.  [realloc_ok] tells
    whether [realloc] finds memory, [junk] what fresh bytes hold. *)
Definition write_callback (realloc_ok : bool) (junk : ascii) (ptr : list ascii)
           (size_ nmemb : Z) (mem : data_struct)
  : Z * data_struct * list (priority * program_message) :=
  let real_size := gsize_wrap (size_ * nmemb) in
  match data mem with
  | Some block =>
      if realloc_ok
      then
        let block := realloc junk block (gsize_wrap (size mem + real_size + 1)) in
        let block := memcpy_at block (size mem) ptr real_size in
        let size' := gsize_wrap (size mem + real_size) in
        let block := store_byte block size' zero in
        (real_size, {| data := Some block; size := size' |}, [])
      else (0, {| data := None; size := size mem |}, [(LOG_ERR, MsgNotEnoughMemory)])
  | None =>
      if realloc_ok
      then
        let block := realloc junk [] (gsize_wrap (size mem + real_size + 1)) in
        let block := memcpy_at block (size mem) ptr real_size in
        let size' := gsize_wrap (size mem + real_size) in
        let block := store_byte block size' zero in
        (real_size, {| data := Some block; size := size' |}, [])
      else (0, {| data := None; size := size mem |}, [(LOG_ERR, MsgNotEnoughMemory)])
  end.

(** The chunk [curl_request] starts from: [malloc (1)], size 0. *)
Definition chunk_init (junk : ascii) : data_struct :=
  {| data := Some [junk]; size := 0 |}.

(** libcurl delivering a body in pieces: one call of the callback per piece,
    with item size 1, until a call returns something else than the number of
    bytes it was given. *)
Fixpoint deliver (junk : ascii) (pieces : list (list ascii)) (mem : data_struct)
  : bool * data_struct :=
  match pieces with
  | [] => (true, mem)
  | piece :: rest =>
      let n := Z.of_nat (List.length piece) in
      let '(written, mem', _) := write_callback true junk piece 1 n mem in
      if written =? n then deliver junk rest mem' else (false, mem')
  end.

(** ** The timer and main *)


(** The timer calling [check_github_notifications] once per element of
    [ticks]; the callback returns TRUE on every path, so the source is never
    removed. *)
Definition run_ticks (info : server_info) (opts : options) (ticks : list world)
           (st : state) : state :=
  fold_left (fun st w => check_github_notifications w info opts st) ticks st.








(** ** More vocabulary *)

(** The names a server advertises the four capabilities under. *)
Definition cap_name (c : cap) : string :=
  match c with
  | CAP_BODY => BODY
  | CAP_BODY_HYPERLINKS => BODY_HYPERLINKS
  | CAP_BODY_MARKUP => BODY_MARKUP
  | CAP_PERSISTENCE => PERSISTENCE
  end.

(** [l1] with something appended. *)
Definition extends {A : Type} (l1 l2 : list A) : Prop := exists more, l2 = (l1 ++ more)%list.

(** The value [last_mod] has after the feed transfers of [ticks]. *)
Fixpoint marker_after (ticks : list world) (marker : Z) : Z :=
  match ticks with
  | [] => marker
  | w :: rest =>
      marker_after rest
        match feed_outcome w with
        | CurlPerformed 200 _ filetime => filetime
        | _ => marker
        end
  end.

(** [st'] has everything [st] had: the journal and the notifications shown
    are continued, and no file is removed. *)
Definition grows (st st' : state) : Prop :=
  extends (journal st) (journal st') /\ extends (shown st) (shown st')
  /\ exists created, tmp_files st' = (created ++ tmp_files st)%list.

Definition step_grows {A : Type} (m : step A) : Prop :=
  forall rc st, grows st (snd (m rc st)).

(** The avatar a well-formed element ends up with when avatars are shown:
    what [prepare_avatar] answers for the user id and avatar url of its
    enrichment, in the state the element is read in. *)
Definition element_avatar (w : world) (json_cnt : nat) (element : json) (st : state)
  : option string * state :=
  let json_user := comment_user w json_cnt element in
  prepare_avatar
    (avatar_outcome w json_cnt
       (json_string_value (json_object_get json_user "avatar_url")))
    (json_user_id_of (json_object_get json_user "id")) st.


(** The members of an object without the member [key]. *)
Definition remove_member (key : string) (members : list (string * json))
  : list (string * json) :=
  filter (fun member => negb (String.eqb (fst member) key)) members.

(** A decoded enrichment answer with the [avatar_url] of its user object
    replaced by [v], or taken away for None. *)
Definition with_avatar_url (v : option json) (root : json) : json :=
  match root with
  | JObject members =>
      match assoc "user" members with
      | Some (JObject user) =>
          let user := remove_member "avatar_url" user in
          let user := match v with
                      | Some x => ("avatar_url", x) :: user
                      | None => user
                      end in
          JObject (("user", JObject user) :: members)
      | _ => root
      end
  | _ => root
  end.

(** The world in which every decoded answer has its [avatar_url] replaced. *)
Definition replace_avatar_url (v : option json) (w : world) : world :=
  {| feed_outcome := feed_outcome w;
     comment_outcome := comment_outcome w;
     avatar_outcome := avatar_outcome w;
     json_loads := fun text => option_map (with_avatar_url v) (json_loads w text);
     json_error := json_error w;
     return_code_init := return_code_init w |}.

(** * Properties *)

(** ** Strings *)

Lemma append_assoc (a b c : string) : (a ++ b) ++ c = a ++ (b ++ c).
Proof. induction a as [|x a IH]; simpl; [reflexivity | now rewrite IH]. Qed.

Lemma append_nil_r (a : string) : a ++ "" = a.
Proof. induction a as [|x a IH]; simpl; [reflexivity | now rewrite IH]. Qed.

Lemma append_eq_append (x y a b : string) :
  x ++ y = a ++ b ->
  (exists m, x = a ++ m /\ b = m ++ y) \/ (exists m, a = x ++ m /\ y = m ++ b).
Proof.
  revert a; induction x as [|c x IH]; intros a H; simpl in H.
  - right. exists a. split; [reflexivity | exact H].
  - destruct a as [|d a]; simpl in H.
    + left. exists (String c x). split; [reflexivity | now rewrite <- H].
    + injection H as -> H. destruct (IH _ H) as [[m [-> ->]] | [m [-> ->]]].
      * left. exists m. split; reflexivity.
      * right. exists m. split; reflexivity.
Qed.

Lemma prefix_append (n post : string) : prefix n (n ++ post) = true.
Proof.
  induction n as [|c n IH]; simpl.
  - now destruct post.
  - destruct (ascii_dec c c) as [_ | ne]; [exact IH | now elim ne].
Qed.

Lemma occurs_contains (n s : string) : occurs n s -> contains n s = true.
Proof.
  intros [pre [post ->]]. induction pre as [|c pre IH].
  - change ("" ++ n ++ post) with (n ++ post).
    pose proof (prefix_append n post) as P.
    destruct (n ++ post); cbn [contains]; rewrite P; reflexivity.
  - simpl. rewrite IH. apply orb_true_r.
Qed.

Lemma suffixb_complete (s pre : string) : suffixb s (pre ++ s) = true.
Proof.
  induction pre as [|c pre IH]; simpl.
  - destruct s; simpl; [reflexivity |].
    now rewrite Ascii.eqb_refl, String.eqb_refl.
  - rewrite IH. apply orb_true_r.
Qed.

Lemma splits_complete (n1 n2 : string) :
  n1 <> "" -> n2 <> "" -> In (n1, n2) (splits (n1 ++ n2)).
Proof.
  induction n1 as [|c n1 IH]; intros H1 H2; [now elim H1 |].
  destruct n1 as [|d n1].
  - simpl. destruct n2; [now elim H2 |]. now left.
  - change (String c (String d n1) ++ n2) with (String c (String d n1 ++ n2)).
    cbn [splits]. cbn [append]. right.
    change (String d (n1 ++ n2)) with (String d n1 ++ n2).
    apply (in_map (fun p => (String c (fst p), snd p)) _ (String d n1, n2)).
    apply IH; [discriminate | exact H2].
Qed.

(** An occurrence in a concatenation lies in one part or straddles. *)
Lemma occurs_append (n x y : string) :
  occurs n (x ++ y) ->
  occurs n x \/ occurs n y
  \/ exists n1 n2 pre post,
      In (n1, n2) (splits n) /\ x = pre ++ n1 /\ y = n2 ++ post.
Proof.
  intros [pre [post H]].
  destruct (append_eq_append _ _ _ _ H) as [[m [-> H']] | [m [-> ->]]].
  - destruct (append_eq_append _ _ _ _ H') as [[k [Hm ->]] | [k [-> ->]]].
    + destruct m as [|c m].
      * right; left. exists "", post. simpl in Hm. now subst.
      * destruct k as [|d k].
        -- left. exists pre, "". rewrite append_nil_r in Hm |- *. now subst.
        -- right; right. exists (String c m), (String d k), pre, post.
           subst n. split; [apply splits_complete; discriminate | split; reflexivity].
    + left. exists pre, k. reflexivity.
  - right; left. exists m, post. reflexivity.
Qed.

Lemma free_after_literal (n l r : string) :
  contains n l = false -> dangling n l = false ->
  ~ occurs n r -> ~ occurs n (l ++ r).
Proof.
  intros Hc Hd Hr H.
  destruct (occurs_append _ _ _ H) as [Hl | [Hr' | [n1 [n2 [pre [post [Hin [-> _]]]]]]]].
  - apply occurs_contains in Hl. congruence.
  - exact (Hr Hr').
  - unfold dangling in Hd.
    assert (E : existsb (fun p => suffixb (fst p) (pre ++ n1)) (splits n) = true).
    { apply existsb_exists. exists (n1, n2). split; [exact Hin | apply suffixb_complete]. }
    congruence.
Qed.

Lemma free_before_char (n f r : string) (c : ascii) :
  leading n c = false ->
  ~ occurs n f -> ~ occurs n (String c r) -> ~ occurs n (f ++ String c r).
Proof.
  intros Hl Hf Hr H.
  destruct (occurs_append _ _ _ H) as [Hf' | [Hr' | [n1 [n2 [pre [post [Hin [_ E]]]]]]]].
  - exact (Hf Hf').
  - exact (Hr Hr').
  - assert (T : leading n c = true).
    { apply existsb_exists. exists (n1, n2). split; [exact Hin |].
      destruct n2 as [|c' n2]; simpl in E; [| injection E as -> _; apply Ascii.eqb_refl].
      apply (in_map snd) in Hin. simpl in Hin.
      exfalso. clear - Hin. revert Hin. generalize n. intro m.
      induction m as [|a m IH]; simpl; [tauto |].
      destruct m as [|b m]; [simpl; tauto |].
      intros [E | Hin]; [discriminate |].
      rewrite map_map in Hin. simpl in Hin. exact (IH Hin). }
    congruence.
Qed.

Lemma splits_head (c : ascii) (n' n1 n2 : string) :
  In (n1, n2) (splits (String c n')) -> exists n1', n1 = String c n1'.
Proof.
  destruct n' as [|d n']; cbn [splits]; [intros [] |].
  intros [E | Hin].
  - injection E as <- _. now exists "".
  - apply in_map_iff in Hin as [[a b] [E _]]. injection E as <- _. now exists a.
Qed.

Lemma free_after_clean (c : ascii) (n' f r : string) :
  ~ occurs (String c "") f ->
  ~ occurs (String c n') r -> ~ occurs (String c n') (f ++ r).
Proof.
  intros Hf Hr H.
  destruct (occurs_append _ _ _ H) as [Hf' | [Hr' | [n1 [n2 [pre [post [Hin [E _]]]]]]]].
  - apply Hf. destruct Hf' as [pre [post ->]]. now exists pre, (n' ++ post).
  - exact (Hr Hr').
  - apply Hf. destruct (splits_head _ _ _ _ Hin) as [n1' ->].
    now exists pre, n1'.
Qed.

Lemma not_occurs_empty (c : ascii) (n' : string) : ~ occurs (String c n') "".
Proof.
  intros [pre [post H]]. destruct pre; simpl in H; discriminate.
Qed.

(** The fixed text of a guarded sequence adds no occurrence. *)
Lemma guarded_free (c : ascii) (n' : string) (ps : list piece) :
  guarded (String c n') ps = true ->
  (forall f, In (Fld f) ps -> ~ occurs (String c n') f) ->
  (forall f, In (Clean f) ps -> ~ occurs (String c "") f) ->
  ~ occurs (String c n') (flatten ps).
Proof.
  intros G F K. induction ps as [|p rest IH].
  - apply not_occurs_empty.
  - assert (F' : forall f, In (Fld f) rest -> ~ occurs (String c n') f)
      by (intros g Hg; apply F; now right).
    assert (K' : forall f, In (Clean f) rest -> ~ occurs (String c "") f)
      by (intros g Hg; apply K; now right).
    destruct p as [l | f | f]; cbn [guarded] in G; cbn [flatten piece_text].
    + apply andb_true_iff in G as [G G3]. apply andb_true_iff in G as [G1 G2].
      apply negb_true_iff in G1, G2.
      apply free_after_literal; [assumption | assumption | now apply IH].
    + destruct rest as [|[l | g | g] rest']; try discriminate.
      * simpl. rewrite append_nil_r. apply F. now left.
      * destruct l as [|d l]; [discriminate |].
        apply andb_true_iff in G as [G1 G2]. apply negb_true_iff in G1.
        pose proof (IH G2 F' K') as R. cbn [flatten piece_text] in R |- *.
        apply free_before_char; [exact G1 | apply F; now left | exact R].
    + apply free_after_clean; [apply K; now left | now apply IH].
Qed.

(** ** show_notification *)

Lemma show_notification_shown info opts notif st :
  shown (show_notification info opts notif st)
  = (shown st ++ [presented opts (rendered_body info (server_caps st) notif) notif])%list.
Proof.
  unfold show_notification, rendered_body, effective_caps, presented.
  destruct (is_xfce_notifyd info), (opt_persistent opts); simpl;
    try reflexivity;
    match goal with |- context [if ?b then _ else _] => destruct b end;
    reflexivity.
Qed.

Lemma show_notification_caps info opts notif st :
  server_caps (show_notification info opts notif st)
  = effective_caps info (server_caps st).
Proof.
  unfold show_notification, effective_caps.
  destruct (is_xfce_notifyd info), (opt_persistent opts); simpl;
    try reflexivity;
    match goal with |- context [if ?b then _ else _] => destruct b end;
    reflexivity.
Qed.

Lemma is_xfce_notifyd_true info :
  is_xfce_notifyd info = true
  <-> name info = "Xfce Notify Daemon" /\ vendor info = "Xfce".
Proof.
  unfold is_xfce_notifyd, g_str_equal.
  rewrite andb_true_iff, !String.eqb_eq. tauto.
Qed.


Lemma body_text_plain b e nl v notif :
  get_cap v CAP_BODY = true -> get_cap v CAP_BODY_HYPERLINKS = false ->
  body_text b e nl v notif = flatten (plain_pieces b e nl notif).
Proof.
  intros Hb Hh. unfold body_text, plain_pieces. rewrite Hb, Hh.
  cbn [flatten piece_text]. repeat rewrite append_assoc. reflexivity.
Qed.

Lemma body_text_lines (b : bool) nl v notif :
  body_text (if b then "<b>" else "") (if b then "</b>" else "") nl v notif
  = String.concat nl
      (if get_cap v CAP_BODY
       then body_lines b (get_cap v CAP_BODY_HYPERLINKS) notif else []).
Proof.
  unfold body_text, body_lines.
  destruct (get_cap v CAP_BODY); [| reflexivity].
  destruct (get_cap v CAP_BODY_HYPERLINKS);
    cbn [String.concat List.app]; repeat rewrite append_assoc;
    rewrite ?append_nil_r; reflexivity.
Qed.

Lemma body_text_link b e nl v notif :
  get_cap v CAP_BODY = true -> get_cap v CAP_BODY_HYPERLINKS = true ->
  body_text b e nl v notif = flatten (link_pieces b e nl notif).
Proof.
  intros Hb Hh. unfold body_text, link_pieces, plain_pieces. rewrite Hb, Hh.
  cbn [flatten piece_text List.app]. repeat rewrite append_assoc.
  rewrite ?append_nil_r. reflexivity.
Qed.

Lemma plain_pieces_fields needle b e nl notif :
  fields_free needle notif ->
  forall f, In (Fld f) (plain_pieces b e nl notif) -> ~ occurs needle f.
Proof.
  intros [H1 [H2 [H3 H4]]] f Hin. simpl in Hin.
  repeat (destruct Hin as [E | Hin]; [try discriminate; injection E as <-; assumption |]).
  contradiction.
Qed.

Lemma plain_pieces_clean (c : ascii) b e nl notif :
  forall f, In (Clean f) (plain_pieces b e nl notif) -> ~ occurs (String c "") f.
Proof.
  intros f Hin. simpl in Hin.
  repeat (destruct Hin as [E | Hin]; [discriminate |]).
  contradiction.
Qed.

Lemma effective_caps_body info v :
  get_cap (effective_caps info v) CAP_BODY = get_cap v CAP_BODY.
Proof. unfold effective_caps. now destruct (is_xfce_notifyd info). Qed.

Lemma effective_caps_hyperlinks_off info v :
  get_cap v CAP_BODY_HYPERLINKS = false
  \/ (name info = "Xfce Notify Daemon" /\ vendor info = "Xfce") ->
  get_cap (effective_caps info v) CAP_BODY_HYPERLINKS = false.
Proof.
  unfold effective_caps. intros [H | H].
  - now destruct (is_xfce_notifyd info).
  - apply is_xfce_notifyd_true in H. now rewrite H.
Qed.

Lemma body_text_free_plain (c : ascii) (n' : string) b e nl v notif :
  get_cap v CAP_BODY_HYPERLINKS = false ->
  guarded (String c n') (plain_pieces b e nl notif) = true ->
  fields_free (String c n') notif ->
  ~ occurs (String c n') (body_text b e nl v notif).
Proof.
  intros Hh G F. destruct (get_cap v CAP_BODY) eqn:Hb.
  - rewrite body_text_plain by assumption.
    apply guarded_free;
      [exact G | now apply plain_pieces_fields | apply plain_pieces_clean].
  - unfold body_text. rewrite Hb. apply not_occurs_empty.
Qed.

Lemma prefix_occurs (n s : string) : prefix n s = true -> exists post, s = n ++ post.
Proof.
  revert s. induction n as [|a n IH]; intros s H.
  - exists s. reflexivity.
  - destruct s as [|b s]; [discriminate |]. simpl in H.
    destruct (Ascii.ascii_dec a b) as [-> |]; [| discriminate].
    destruct (IH s H) as [post ->]. exists post. reflexivity.
Qed.

Lemma contains_occurs (n s : string) : contains n s = true -> occurs n s.
Proof.
  induction s as [|c s IH]; cbn [contains]; intros H.
  - rewrite orb_false_r in H. destruct (prefix_occurs _ _ H) as [post E].
    exists "", post. exact E.
  - apply orb_true_iff in H as [H | H].
    + destruct (prefix_occurs _ _ H) as [post E]. exists "", post. exact E.
    + destruct (IH H) as [pre [post ->]]. exists (String c pre), post. reflexivity.
Qed.

Lemma occurs_dec (n s : string) : occurs n s \/ ~ occurs n s.
Proof.
  destruct (contains n s) eqn:C.
  - left. now apply contains_occurs.
  - right. intros H. apply occurs_contains in H. congruence.
Qed.

(** Either one of the texts carries the needle, or none does. *)
Lemma occurs_in_texts (n : string) (texts : list string) :
  (exists text, In text texts /\ occurs n text)
  \/ (forall text, In text texts -> ~ occurs n text).
Proof.
  induction texts as [|a l IH].
  - right. intros t [].
  - destruct (occurs_dec n a) as [H | H].
    + left. exists a. split; [now left | exact H].
    + destruct IH as [[t [I O]] | IH].
      * left. exists t. split; [now right | exact O].
      * right. intros t [<- | I]; auto.
Qed.

Lemma occurs_append_l (n x y : string) : occurs n x -> occurs n (x ++ y).
Proof.
  intros [pre [post ->]]. exists pre, (post ++ y). now rewrite !append_assoc.
Qed.

Lemma occurs_append_r (n x y : string) : occurs n y -> occurs n (x ++ y).
Proof.
  intros [pre [post ->]]. exists (x ++ pre), post. now rewrite append_assoc.
Qed.

Lemma occurs_flatten (n : string) (p : piece) (ps : list piece) :
  In p ps -> occurs n (piece_text p) -> occurs n (flatten ps).
Proof.
  induction ps as [|q ps IH]; intros I O; [contradiction |].
  cbn [flatten]. destruct I as [<- | I].
  - now apply occurs_append_l.
  - apply occurs_append_r. now apply IH.
Qed.

Lemma body_text_pieces b e nl v notif :
  body_text b e nl v notif = flatten (body_pieces b e nl v notif).
Proof.
  unfold body_pieces. destruct (get_cap v CAP_BODY) eqn:Hb.
  - destruct (get_cap v CAP_BODY_HYPERLINKS) eqn:Hh.
    + now apply body_text_link.
    + now apply body_text_plain.
  - unfold body_text. now rewrite Hb.
Qed.

(** The copied pieces of a body are the copied texts. *)
Lemma body_pieces_texts b e nl v notif f :
  In (Fld f) (body_pieces b e nl v notif) <-> In f (copied_texts v notif).
Proof.
  unfold body_pieces, copied_texts, link_pieces, plain_pieces.
  destruct (get_cap v CAP_BODY), (get_cap v CAP_BODY_HYPERLINKS);
    cbn [In List.app]; split; intros H;
    repeat (destruct H as [H | H];
            [try discriminate H; try (injection H as <-); try subst f; auto 15 |]);
    contradiction.
Qed.

Lemma body_pieces_clean b e nl v notif f :
  ~ In (Clean f) (body_pieces b e nl v notif).
Proof.
  unfold body_pieces, link_pieces, plain_pieces.
  destruct (get_cap v CAP_BODY), (get_cap v CAP_BODY_HYPERLINKS);
    cbn [In List.app]; intros H;
    repeat (destruct H as [H | H]; [discriminate H |]); contradiction.
Qed.

(** When the fixed text of a body is guarded against a needle, the body
    carries the needle exactly when one of the copied texts does. *)
Lemma body_text_occurs (c : ascii) (n' : string) b e nl v notif :
  guarded (String c n') (body_pieces b e nl v notif) = true ->
  occurs (String c n') (body_text b e nl v notif)
  <-> exists text, In text (copied_texts v notif) /\ occurs (String c n') text.
Proof.
  intros G. rewrite body_text_pieces. split.
  - intros O.
    destruct (occurs_in_texts (String c n') (copied_texts v notif)) as [H | H];
      [exact H |].
    exfalso. revert O. apply guarded_free; [exact G | |].
    + intros f I. apply H. now apply body_pieces_texts in I.
    + intros f I. now apply body_pieces_clean in I.
  - intros [t [I O]].
    apply (occurs_flatten _ (Fld t)); [now apply body_pieces_texts | exact O].
Qed.

(** Discharges the side conditions on the renderer's fixed text. *)
Ltac fixed_text := vm_compute; reflexivity.

(** Refutes an occurrence in a closed string by running [contains]. *)
Ltac absent :=
  let H := fresh in
  intro H; apply occurs_contains in H; vm_compute in H; discriminate H.

(** C5 (amended).  The renderer itself puts no bold tag into a body when
    body-markup is off, and no hyperlink fragment when body-hyperlinks is off
    or the server is xfce4-notifyd: the body then carries "<b>", "</b>" or
    "<a href=" exactly when a text copied from the notification carries it.
    The copied texts are the four fields and, when the link line is built,
    the repository url with the ">" that closes the anchor.  Without the
    body capability the body is empty. *)
Theorem body_markup_only_from_fields info opts notif st :
  exists body,
    shown (show_notification info opts notif st)
    = (shown st ++ [presented opts body notif])%list
    /\ (get_cap (server_caps st) CAP_BODY_MARKUP = false ->
        forall tag, tag = "<b>" \/ tag = "</b>" ->
        occurs tag body
        <-> exists text,
            In text (copied_texts (effective_caps info (server_caps st)) notif)
            /\ occurs tag text)
    /\ (get_cap (server_caps st) CAP_BODY_HYPERLINKS = false
        \/ (name info = "Xfce Notify Daemon" /\ vendor info = "Xfce") ->
        (occurs "<a href=" body
         <-> exists text,
             In text (copied_texts (effective_caps info (server_caps st)) notif)
             /\ occurs "<a href=" text)
        /\ (fields_free "<a href=" notif -> ~ occurs "<a href=" body))
    /\ (get_cap (server_caps st) CAP_BODY = false -> body = "").
Proof.
  exists (rendered_body info (server_caps st) notif).
  split; [apply show_notification_shown |].
  unfold rendered_body. split; [| split].
  - intros M tag T. rewrite M. cbn [negb].
    destruct T as [-> | ->]; apply body_text_occurs; unfold body_pieces;
      destruct (is_plasma_1_0 info),
        (get_cap (effective_caps info (server_caps st)) CAP_BODY),
        (get_cap (effective_caps info (server_caps st)) CAP_BODY_HYPERLINKS);
      fixed_text.
  - intros Hh. apply effective_caps_hyperlinks_off in Hh. split.
    + apply body_text_occurs. unfold body_pieces. rewrite Hh.
      destruct (get_cap (server_caps st) CAP_BODY_MARKUP), (is_plasma_1_0 info),
        (get_cap (effective_caps info (server_caps st)) CAP_BODY);
        fixed_text.
    + intros F.
      destruct (get_cap (server_caps st) CAP_BODY_MARKUP), (is_plasma_1_0 info);
        cbn [negb]; apply body_text_free_plain; auto; fixed_text.
  - intros Hb. unfold body_text. now rewrite effective_caps_body, Hb.
Qed.

(** C5, as stated, fails: with body-markup off, a title that quotes "<b>"
    is copied into the body as it is. *)
Lemma bold_tag_copied_from_title :
  get_cap (server_caps (state_with text_only_caps)) CAP_BODY_MARKUP = false
  /\ exists body,
      shown (show_notification gnome_shell default_options bold_in_title
               (state_with text_only_caps))
      = [presented default_options body bold_in_title]
      /\ occurs "<b>" body.
Proof.
  split; [reflexivity |].
  eexists. split; [reflexivity |].
  exists ("Repository:" ++ TAB ++ " r" ++ LF ++ "Type:" ++ TAB ++ TAB ++ " Issue" ++ LF
          ++ "Title:" ++ TAB ++ TAB ++ " Strip "),
         (" from titles" ++ LF ++ "User:" ++ TAB ++ TAB ++ " alice").
  reflexivity.
Qed.

Lemma body_markup_only_from_fields_witness :
  (exists body,
      shown (show_notification gnome_shell default_options fix_bug
               (state_with no_markup_caps))
      = [presented default_options body fix_bug]
      /\ ~ occurs "<b>" body /\ ~ occurs "</b>" body)
  /\ exists body,
      shown (show_notification plasma_1_0 default_options fix_bug
               (state_with text_only_caps))
      = [presented default_options body fix_bug]
      /\ ~ occurs "<a href=" body.
Proof.
  split.
  - destruct (body_markup_only_from_fields gnome_shell default_options fix_bug
                (state_with no_markup_caps)) as [body [E [B _]]].
    exists body. split; [exact E |].
    split; intros O; apply (B eq_refl) in O; auto;
      destruct O as [text [I O]]; revert O; cbn in I;
      repeat (destruct I as [<- | I]; [absent |]); contradiction.
  - destruct (body_markup_only_from_fields plasma_1_0 default_options fix_bug
                (state_with text_only_caps)) as [body [E [_ [H _]]]].
    exists body. split; [exact E |].
    apply (H (or_introl eq_refl)). repeat split; absent.
Defined.

(** C6 (amended).  For the identity (Xfce Notify Daemon, Xfce) the renderer
    appends no link line whatever the capability array says: the body is made
    of the four field lines only, and "<a href=" is absent from it unless a
    copied field carries it. *)
Theorem xfce_no_link_line info opts notif st :
  name info = "Xfce Notify Daemon" -> vendor info = "Xfce" ->
  exists body,
    shown (show_notification info opts notif st)
    = (shown st ++ [presented opts body notif])%list
    /\ body = String.concat LF
                (if get_cap (server_caps st) CAP_BODY
                 then body_lines (get_cap (server_caps st) CAP_BODY_MARKUP) false notif
                 else [])
    /\ (fields_free "<a href=" notif -> ~ occurs "<a href=" body).
Proof.
  intros Hn Hv.
  assert (X : is_xfce_notifyd info = true) by now apply is_xfce_notifyd_true.
  assert (P : is_plasma_1_0 info = false).
  { unfold is_plasma_1_0, g_str_equal. now rewrite Hn. }
  exists (rendered_body info (server_caps st) notif).
  split; [apply show_notification_shown |].
  unfold rendered_body. rewrite P. split.
  - destruct (get_cap (server_caps st) CAP_BODY_MARKUP) eqn:M; cbn [negb].
    + rewrite (body_text_lines true). rewrite effective_caps_body.
      now rewrite effective_caps_hyperlinks_off by (right; auto).
    + rewrite (body_text_lines false). rewrite effective_caps_body.
      now rewrite effective_caps_hyperlinks_off by (right; auto).
  - intros F.
    assert (Hh : get_cap (effective_caps info (server_caps st)) CAP_BODY_HYPERLINKS = false)
      by (apply effective_caps_hyperlinks_off; right; auto).
    destruct (get_cap (server_caps st) CAP_BODY_MARKUP);
      cbn [negb]; apply body_text_free_plain; auto; fixed_text.
Qed.

(** C6, as stated, fails: xfce4-notifyd still receives "<a href=" when the
    title of the notification quotes it. *)
Lemma anchor_copied_from_title_on_xfce :
  name xfce_notifyd = "Xfce Notify Daemon" /\ vendor xfce_notifyd = "Xfce"
  /\ exists body,
      shown (show_notification xfce_notifyd default_options anchor_in_title
               (state_with all_caps))
      = [presented default_options body anchor_in_title]
      /\ occurs "<a href=" body.
Proof.
  split; [reflexivity | split; [reflexivity |]].
  eexists. split; [reflexivity |].
  exists ("<b>Repository:</b>" ++ TAB ++ " r" ++ LF ++ "<b>Type:</b>" ++ TAB ++ TAB
          ++ " Issue" ++ LF ++ "<b>Title:</b>" ++ TAB ++ TAB ++ " Escape "),
         ("x> in comments" ++ LF ++ "<b>User:</b>" ++ TAB ++ TAB ++ " alice").
  reflexivity.
Qed.

Lemma xfce_no_link_line_witness :
  exists body,
    shown (show_notification xfce_notifyd default_options fix_bug (state_with all_caps))
    = [presented default_options body fix_bug]
    /\ body = "<b>Repository:</b>" ++ TAB ++ " r" ++ LF
              ++ "<b>Type:</b>" ++ TAB ++ TAB ++ " PullRequest" ++ LF
              ++ "<b>Title:</b>" ++ TAB ++ TAB ++ " Fix bug" ++ LF
              ++ "<b>User:</b>" ++ TAB ++ TAB ++ " alice"
    /\ ~ occurs "<a href=" body.
Proof.
  destruct (xfce_no_link_line xfce_notifyd default_options fix_bug
              (state_with all_caps) eq_refl eq_refl) as [body [E [B F]]].
  exists body. split; [exact E | split; [exact B |]].
  apply F. repeat split; absent.
Defined.



(** ** The loop of check_github_notifications *)

Lemma quiet_refl st : quiet st st.
Proof. repeat split. Qed.

Lemma quiet_trans a b c : quiet a b -> quiet b c -> quiet a c.
Proof.
  intros [A1 [A2 [A3 A4]]] [B1 [B2 [B3 B4]]].
  repeat split; congruence.
Qed.

Lemma invalid_count_app l1 l2 :
  invalid_count (l1 ++ l2) = (invalid_count l1 + invalid_count l2)%nat.
Proof. unfold invalid_count. now rewrite filter_app, length_app. Qed.

Lemma quiet_print_log p m st :
  m <> MsgInvalidNotification -> quiet st (print_log p m st).
Proof.
  intros Hm. repeat split. cbn [print_log journal].
  rewrite invalid_count_app.
  destruct m; try (cbn; lia). now elim Hm.
Qed.

Lemma quiet_create_file path st : quiet st (create_file path st).
Proof. repeat split. Qed.

Create HintDb quiet.
#[local] Hint Resolve quiet_refl quiet_print_log quiet_create_file : quiet.
#[local] Hint Extern 1 (_ <> MsgInvalidNotification) => discriminate : quiet.

Lemma quiet_prepare_avatar o id st :
  quiet st (snd (prepare_avatar o id st)).
Proof.
  unfold prepare_avatar. destruct (negb (access_F_OK (tmp_png_path id) st)).
  - destruct o; cbn [snd];
      repeat (eapply quiet_trans;
              [| first [apply quiet_print_log; discriminate | apply quiet_create_file]]);
      apply quiet_refl.
  - apply quiet_refl.
Qed.

Lemma quiet_curl_request_unconditional o rc st :
  quiet st (snd (curl_request o false rc st)).
Proof.
  unfold curl_request. destruct o; cbn [snd]; auto with quiet.
  destruct (negb _ && negb _); cbn [snd]; auto with quiet.
Qed.

Lemma bind_expect_object {A : Type} j (k : unit -> step A) rc st :
  bind (expect_object j) k rc st
  = if json_is_object j then k tt rc st else (None, rc, st).
Proof. unfold bind, expect_object. now destruct (json_is_object j). Qed.

Lemma bind_expect_string {A : Type} j (k : string -> step A) rc st :
  bind (expect_string j) k rc st
  = if json_is_string j then k (json_string_value j) rc st else (None, rc, st).
Proof. unfold bind, expect_string. now destruct (json_is_string j). Qed.

Lemma bind_expect_number {A : Type} j (k : Z -> step A) rc st :
  bind (expect_number j) k rc st
  = if json_is_number j then k (json_user_id_of j) rc st else (None, rc, st).
Proof. unfold bind, expect_number. now destruct (json_is_number j). Qed.

Lemma bind_ret {A B : Type} (a : A) (k : A -> step B) rc st :
  bind (ret a) k rc st = k a rc st.
Proof. reflexivity. Qed.

Ltac skip_case :=
  do 3 eexists; split; [reflexivity |];
  split; [solve [auto with quiet] |];
  cbn; rewrite ?andb_false_r; reflexivity.

Lemma read_notification_spec w opts i e rc st :
  exists r rc' st',
    read_notification w opts i e rc st = (r, rc', st')
    /\ quiet st st'
    /\ match r with
       | Some n =>
           well_formed w opts (i, e) = true
           /\ notification_key n = element_key w (i, e)
           /\ (opt_no_avatar opts = true -> user_avatar n = None)
       | None => well_formed w opts (i, e) = false
       end.
Proof.
  unfold read_notification, well_formed, required_fields_present,
    element_key, comment_user, comment_root, comment_url, well_formed_user,
    has_string.
  cbn [fst snd]. cbv zeta.
  rewrite bind_expect_object.
  destruct (json_is_object (Some e)); [| skip_case].
  rewrite bind_expect_string.
  destruct (json_is_string (json_object_get (Some e) "reason")); [| skip_case].
  rewrite bind_expect_object.
  destruct (json_is_object (json_object_get (Some e) "subject")); [| skip_case].
  rewrite bind_expect_string.
  destruct (json_is_string (json_object_get (json_object_get (Some e) "subject") "type"));
    [| skip_case].
  rewrite bind_expect_string.
  destruct (json_is_string (json_object_get (json_object_get (Some e) "subject") "title"));
    [| skip_case].
  rewrite bind_expect_object.
  destruct (json_is_object (json_object_get (Some e) "repository")); [| skip_case].
  rewrite bind_expect_string.
  destruct (json_is_string (json_object_get (json_object_get (Some e) "repository") "name"));
    [| skip_case].
  rewrite bind_expect_string.
  destruct (json_is_string (json_object_get (json_object_get (Some e) "repository") "html_url"));
    [| skip_case].
  rewrite bind_expect_string.
  destruct (json_is_string
              (json_object_get (json_object_get (Some e) "subject") "latest_comment_url"));
    [| skip_case].
  cbn [andb].
  unfold bind at 1, request_comment, curl_request.
  destruct (comment_outcome w i _) as [| err | code data filetime];
    [skip_case | skip_case |].
  unfold RESPONSE_CODE_OK, RESPONSE_CODE_NOT_MODIFIED.
  destruct (code =? 200) eqn:E200; destruct (code =? 304) eqn:E304;
    cbn [negb andb orb]; try skip_case.
  all: unfold bind at 1, decode_comment.
  all: destruct (json_loads w data) as [root |]; [| skip_case].
  all: rewrite bind_expect_object.
  all: destruct (json_is_object (json_object_get (Some root) "user")); [| skip_case].
  all: rewrite bind_expect_string.
  all: destruct (json_is_string (json_object_get (json_object_get (Some root) "user") "login"));
    [| skip_case].
  all: rewrite bind_expect_number.
  all: destruct (json_is_number (json_object_get (json_object_get (Some root) "user") "id"));
    [| skip_case].
  all: unfold bind at 1, read_avatar.
  all: destruct (opt_no_avatar opts); cbn [negb orb andb].
  all: try (do 3 eexists; split; [reflexivity |];
            split; [apply quiet_refl | repeat split]).
  all: rewrite bind_expect_string.
  all: destruct (json_is_string
                   (json_object_get (json_object_get (Some root) "user") "avatar_url"));
    [| skip_case].
  all: match goal with
       | |- context [prepare_avatar ?o ?id ?s] =>
           pose proof (quiet_prepare_avatar o id s) as Q;
           destruct (prepare_avatar o id s) as [path st1]
       end.
  all: do 3 eexists; split; [reflexivity |];
    split; [exact Q | repeat split; discriminate].
Qed.

Lemma iterate_spec w opts items :
  forall i acc rc st,
  exists ns rc' st',
    iterate w opts i items acc rc st = ((acc ++ ns)%list, rc', st')
    /\ map notification_key ns
       = map (element_key w) (filter (well_formed w opts) (enumerate_from i items))
    /\ (opt_no_avatar opts = true -> Forall (fun n => user_avatar n = None) ns)
    /\ shown st' = shown st
    /\ server_caps st' = server_caps st
    /\ last_mod st' = last_mod st
    /\ invalid_count (journal st')
       = (invalid_count (journal st)
          + List.length (filter (malformed w opts) (enumerate_from i items)))%nat.
Proof.
  induction items as [|e rest IH]; intros i acc rc st.
  - exists [], rc, st. rewrite app_nil_r. cbn. repeat split; auto; lia.
  - destruct (read_notification_spec w opts i e rc st)
      as [r [rc1 [st1 [E [[Q1 [Q2 [Q3 Q4]]] R]]]]].
    cbn [iterate enumerate_from filter]. rewrite E. unfold malformed at 1.
    destruct r as [n |].
    + destruct R as [W [K A]]. rewrite W. cbn [negb].
      destruct (IH (S i) (acc ++ [n])%list rc1
                  (print_log LOG_INFO
                     (MsgNewNotification (repository n) (type n) (reason n)) st1))
        as [ns [rc2 [st2 [E2 [K2 [A2 [S2 [C2 [L2 J2]]]]]]]]].
      cbn [print_log shown server_caps last_mod] in S2, C2, L2.
      exists (n :: ns), rc2, st2.
      rewrite E2, <- app_assoc. cbn [List.app map].
      split; [reflexivity |].
      split; [cbn [map]; congruence |].
      split; [intros Ha; constructor; auto |].
      split; [congruence |]. split; [congruence |]. split; [congruence |].
      rewrite J2. cbn [print_log journal List.length]. rewrite invalid_count_app.
      cbn. lia.
    + rewrite R. cbn [negb].
      destruct (IH (S i) acc rc1 (print_log LOG_INFO MsgInvalidNotification st1))
        as [ns [rc2 [st2 [E2 [K2 [A2 [S2 [C2 [L2 J2]]]]]]]]].
      cbn [print_log shown server_caps last_mod] in S2, C2, L2.
      exists ns, rc2, st2. rewrite E2.
      split; [reflexivity |]. split; [exact K2 |]. split; [exact A2 |].
      split; [congruence |]. split; [congruence |]. split; [congruence |].
      rewrite J2. cbn [print_log journal List.length]. rewrite invalid_count_app.
      cbn. lia.
Qed.

Lemma effective_caps_idem info v :
  effective_caps info (effective_caps info v) = effective_caps info v.
Proof. unfold effective_caps. destruct (is_xfce_notifyd info); now destruct v. Qed.

Lemma rendered_body_effective info v notif :
  rendered_body info (effective_caps info v) notif = rendered_body info v notif.
Proof.
  unfold rendered_body. rewrite effective_caps_idem.
  replace (get_cap (effective_caps info v) CAP_BODY_MARKUP)
    with (get_cap v CAP_BODY_MARKUP); [reflexivity |].
  unfold effective_caps. now destruct (is_xfce_notifyd info).
Qed.

Lemma show_notification_frame info opts notif st :
  last_mod (show_notification info opts notif st) = last_mod st
  /\ tmp_files (show_notification info opts notif st) = tmp_files st
  /\ invalid_count (journal (show_notification info opts notif st))
     = invalid_count (journal st).
Proof.
  unfold show_notification.
  destruct (is_xfce_notifyd info), (opt_persistent opts),
    (cap_persistence (server_caps st)) eqn:P;
    cbn -[body_text invalid_count]; rewrite ?P; cbn -[body_text invalid_count];
    repeat split; rewrite ?invalid_count_app; cbn; lia.
Qed.

Lemma show_all_spec info opts ns :
  forall st,
    shown (show_all info opts ns st)
    = (shown st
       ++ map (fun n => presented opts (rendered_body info (server_caps st) n) n) ns)%list
    /\ last_mod (show_all info opts ns st) = last_mod st
    /\ invalid_count (journal (show_all info opts ns st)) = invalid_count (journal st)
    /\ server_caps (show_all info opts ns st)
       = match ns with
         | [] => server_caps st
         | _ :: _ => effective_caps info (server_caps st)
         end.
Proof.
  unfold show_all. induction ns as [|n ns IH]; intros st.
  - cbn. rewrite app_nil_r. repeat split.
  - cbn [fold_left map].
    destruct (IH (show_notification info opts n st)) as [S [L [J C]]].
    destruct (show_notification_frame info opts n st) as [L1 [_ J1]].
    rewrite S, L, J, C, show_notification_shown, show_notification_caps, <- app_assoc.
    repeat split; auto.
    + cbn [List.app]. do 2 f_equal. apply map_ext. intros a.
      now rewrite rendered_body_effective.
    + destruct ns; [reflexivity | apply effective_caps_idem].
Qed.

Lemma length_enumerate_from items :
  forall i, List.length (enumerate_from i items) = List.length items.
Proof. induction items as [|e rest IH]; intros i; cbn; [reflexivity | now rewrite IH]. Qed.

Lemma filter_partition_length {A : Type} (f : A -> bool) (l : list A) :
  (List.length (filter f l) + List.length (filter (fun x => negb (f x)) l))%nat
  = List.length l.
Proof.
  induction l as [|a l IH]; cbn; [reflexivity |].
  destruct (f a); cbn; lia.
Qed.

(** A tick whose feed is fetched with status 200 and decodes to an array. *)
Lemma check_on_array w info opts st text filetime items :
  feed_outcome w = CurlPerformed RESPONSE_CODE_OK text filetime ->
  json_loads w text = Some (JArray items) ->
  exists ns,
    shown (check_github_notifications w info opts st)
    = (shown st
       ++ map (fun n => presented opts (rendered_body info (server_caps st) n) n) ns)%list
    /\ map notification_key ns
       = map (element_key w) (filter (well_formed w opts) (enumerate_from 0 items))
    /\ (opt_no_avatar opts = true -> Forall (fun n => user_avatar n = None) ns)
    /\ invalid_count (journal (check_github_notifications w info opts st))
       = (invalid_count (journal st)
          + List.length (filter (malformed w opts) (enumerate_from 0 items)))%nat
    /\ last_mod (check_github_notifications w info opts st) = filetime
    /\ server_caps (check_github_notifications w info opts st)
       = match ns with
         | [] => server_caps st
         | _ :: _ => effective_caps info (server_caps st)
         end.
Proof.
  intros F D. unfold check_github_notifications. rewrite F.
  cbn [curl_request]. rewrite Z.eqb_refl. cbn [negb andb].
  change (RESPONSE_CODE_OK =? RESPONSE_CODE_NOT_MODIFIED) with false. cbn [negb].
  rewrite D.
  destruct (iterate_spec w opts items 0%nat [] RESPONSE_CODE_OK (set_last_mod filetime st))
    as [ns [rc' [st' [E [K [A [S [C [L J]]]]]]]]].
  rewrite E. cbn [List.app].
  destruct (show_all_spec info opts ns st') as [S' [L' [J' C']]].
  exists ns. rewrite S', L', J', C', S, C, L, J. cbn [set_last_mod shown server_caps last_mod journal].
  repeat split; auto.
Qed.

(** C1, at the failing input.  The feed holds two well-formed elements, the
    first with the reason "%s%s%s%s%s%s%s%s".  The loop resolves that
    element, and the "new notification" line it then logs for it, before
    anything is shown, is not a defined call of syslog: the tick leaves what
    C defines, and the two notifications are not known to be rendered. *)
Theorem directive_in_reason_stops_the_batch :
  let items := [directive_pull_request; pull_request_element] in
  let w := world_with_items items in
  let st := set_last_mod 1414886400 (state_with all_caps) in
  let st1 := create_file "/tmp/7.png" (print_log LOG_INFO MsgDownloadingAvatar st) in
  let n := {| repository := "r"; repository_url := "http://x"; type := "PullRequest";
              title := "Fix bug"; user := "alice"; user_avatar := Some "/tmp/7.png";
              reason := "%s%s%s%s%s%s%s%s" |} in
  filter (well_formed w default_options) (enumerate_from 0 items) = enumerate_from 0 items
  /\ read_notification w default_options 0 directive_pull_request 200 st
     = (Some n, 200, st1)
  /\ shown st1 = []
  /\ journal_defined (journal st1) = true
  /\ syslog_defined (MsgNewNotification (repository n) (type n) (reason n)) = false
  /\ tick_defined w gnome_shell default_options (state_with all_caps) = false.
Proof. repeat split; vm_compute; reflexivity. Qed.

Lemma well_formed_without_avatar w opts p :
  opt_no_avatar opts = true ->
  required_fields_present (snd p) = true ->
  well_formed_user no_avatar_options (comment_user w (fst p) (snd p)) = true ->
  well_formed w opts p = true.
Proof.
  unfold well_formed, well_formed_user. intros -> -> H. exact H.
Qed.

Lemma malformed_without_avatar_url w opts p :
  opt_no_avatar opts = false ->
  has_string (comment_user w (fst p) (snd p)) "avatar_url" = false ->
  well_formed w opts p = false.
Proof.
  unfold well_formed, well_formed_user. intros -> ->.
  cbn [orb]. now rewrite !andb_false_r.
Qed.

(** C10, at the failing input.  Avatars are disabled and the enrichment of
    the element has no [avatar_url].  The element is resolved into a
    notification without avatar, but its reason is "%s%s%s%s%s%s%s%s": the
    "new notification" line logged for it before the rendering is not a
    defined call of syslog, and the notification is not known to be
    rendered. *)
Theorem directive_record_without_avatar_is_not_rendered :
  let w := world_with_items [directive_issue] in
  let st := set_last_mod 1414886400 (state_with all_caps) in
  let n := {| repository := "s"; repository_url := "http://y"; type := "Issue";
              title := "Docs"; user := "bob"; user_avatar := None;
              reason := "%s%s%s%s%s%s%s%s" |} in
  has_string (comment_user w 0 directive_issue) "avatar_url" = false
  /\ read_notification w no_avatar_options 0 directive_issue 200 st = (Some n, 200, st)
  /\ shown st = []
  /\ syslog_defined (MsgNewNotification (repository n) (type n) (reason n)) = false
  /\ tick_defined w gnome_shell no_avatar_options (state_with all_caps) = false.
Proof. repeat split; vm_compute; reflexivity. Qed.

(** ** The exits of check_github_notifications *)

Lemma error_exit_frame rc st :
  server_caps (error_exit rc st) = server_caps st
  /\ last_mod (error_exit rc st) = last_mod st
  /\ journal (error_exit rc st) = journal st
  /\ tmp_files (error_exit rc st) = tmp_files st.
Proof.
  unfold error_exit.
  destruct (rc =? RESPONSE_CODE_NOT_MODIFIED), (rc =? RESPONSE_CODE_UNAUTHORIZED);
    repeat split.
Qed.

(** A failed transfer leaves [*code] as it was, and the tick then branches on
    whatever [return_code] held. *)
Lemma transport_failure_classification w info opts st err :
  feed_outcome w = CurlPerformFailed err ->
  curl_request (feed_outcome w) true (return_code_init w) st
  = (None, return_code_init w, print_log LOG_ERR (MsgCurlPerformFailed err) st)
  /\ shown (check_github_notifications w info opts st)
     = (shown st
        ++ if return_code_init w =? RESPONSE_CODE_NOT_MODIFIED then []
           else if return_code_init w =? RESPONSE_CODE_UNAUTHORIZED
                then [error_notification AUTHORIZATION_ERROR]
                else [error_notification UNDEFINED_ERROR])%list.
Proof.
  intros F. unfold check_github_notifications. rewrite F. cbn [curl_request].
  split; [reflexivity |]. unfold error_exit.
  destruct (return_code_init w =? RESPONSE_CODE_NOT_MODIFIED);
    [cbn; now rewrite app_nil_r |].
  destruct (return_code_init w =? RESPONSE_CODE_UNAUTHORIZED); reflexivity.
Qed.

(** C2, at the failing input.  The feed transfer times out while the
    uninitialised [return_code] holds 304: [curl_request] returns NULL and
    leaves 304 (not 0) in [*code], and the tick shows nothing at all
    instead of the undefined-error notification. *)
Theorem timeout_with_stale_304_shows_nothing :
  let w := world_with_feed (CurlPerformFailed "Timeout was reached") 304 in
  let st := state_with all_caps in
  curl_request (feed_outcome w) true (return_code_init w) st
  = (None, 304, print_log LOG_ERR (MsgCurlPerformFailed "Timeout was reached") st)
  /\ shown (check_github_notifications w gnome_shell default_options st) = [].
Proof. split; reflexivity. Qed.

(** C3.  When the feed answers 304, [curl_request] returns NULL without a
    log line and without touching [last_mod], and the tick shows nothing,
    logs nothing and leaves [last_mod] as the previous fetch set it. *)
Theorem not_modified_tick_is_silent w info opts st data filetime :
  feed_outcome w = CurlPerformed RESPONSE_CODE_NOT_MODIFIED data filetime ->
  curl_request (feed_outcome w) true (return_code_init w) st
  = (None, RESPONSE_CODE_NOT_MODIFIED, st)
  /\ shown (check_github_notifications w info opts st) = shown st
  /\ journal (check_github_notifications w info opts st) = journal st
  /\ last_mod (check_github_notifications w info opts st) = last_mod st.
Proof.
  intros F. unfold check_github_notifications. rewrite F. cbn. repeat split.
Qed.

Lemma not_modified_tick_is_silent_witness :
  shown (check_github_notifications (world_with_feed (CurlPerformed 304 "" (-1)) 0)
           gnome_shell default_options (set_last_mod 1414886400 (state_with all_caps)))
  = []
  /\ journal (check_github_notifications (world_with_feed (CurlPerformed 304 "" (-1)) 0)
                gnome_shell default_options
                (set_last_mod 1414886400 (state_with all_caps)))
     = []
  /\ last_mod (check_github_notifications (world_with_feed (CurlPerformed 304 "" (-1)) 0)
                 gnome_shell default_options
                 (set_last_mod 1414886400 (state_with all_caps)))
     = 1414886400.
Proof.
  destruct (not_modified_tick_is_silent
              (world_with_feed (CurlPerformed 304 "" (-1)) 0)
              gnome_shell default_options
              (set_last_mod 1414886400 (state_with all_caps)) "" (-1) eq_refl)
    as [_ [S [J L]]].
  split; [exact S | split; [exact J | exact L]].
Defined.

(** C4.  When the feed answers 401, whatever the response body, the tick
    shows exactly one notification: critical, with the authorization-error
    text.  It logs the status line only: no element is read, no comment is
    requested, and [last_mod] and the capability array are left alone. *)
Theorem unauthorized_tick_shows_one_critical_error w info opts st data filetime :
  feed_outcome w = CurlPerformed RESPONSE_CODE_UNAUTHORIZED data filetime ->
  shown (check_github_notifications w info opts st)
  = (shown st
     ++ [ {| nn_summary :=
               "'github-notifyd' authorization error - please check access token value";
             nn_body := None;
             nn_icon := None;
             nn_transient := false;
             nn_urgency := NOTIFY_URGENCY_CRITICAL |} ])%list
  /\ journal (check_github_notifications w info opts st)
     = (journal st ++ [(LOG_ERR, MsgServerRespondedWithCode 401)])%list
  /\ last_mod (check_github_notifications w info opts st) = last_mod st
  /\ tmp_files (check_github_notifications w info opts st) = tmp_files st
  /\ server_caps (check_github_notifications w info opts st) = server_caps st.
Proof.
  intros F. unfold check_github_notifications. rewrite F. cbn. repeat split.
Qed.

Lemma unauthorized_tick_shows_one_critical_error_witness :
  shown (check_github_notifications
           (world_with_feed (CurlPerformed 401 "feed" (-1)) 200)
           gnome_shell default_options (state_with all_caps))
  = [error_notification AUTHORIZATION_ERROR].
Proof.
  destruct (unauthorized_tick_shows_one_critical_error
              (world_with_feed (CurlPerformed 401 "feed" (-1)) 200)
              gnome_shell default_options (state_with all_caps) "feed" (-1) eq_refl)
    as [S _].
  exact S.
Defined.

(** ** The capability array *)

(** A server advertising the four capabilities the daemon looks for, among
    others, negotiates the full array. *)
Lemma negotiate_all_caps :
  negotiate ["actions"; "body"; "body-hyperlinks"; "body-markup"; "icon-static";
             "persistence"] = all_caps.
Proof. reflexivity. Qed.

(** Negotiation only ever raises entries: a capability is set exactly when
    the server lists it. *)
Lemma negotiate_body_hyperlinks advertised :
  get_cap (negotiate advertised) CAP_BODY_HYPERLINKS = true
  <-> In BODY_HYPERLINKS advertised.
Proof.
  unfold negotiate.
  assert (G : forall l v,
             get_cap (fold_left (fun v data => set_server_caps data v) l v)
                     CAP_BODY_HYPERLINKS = true
             <-> get_cap v CAP_BODY_HYPERLINKS = true \/ In BODY_HYPERLINKS l).
  { induction l as [|d l IH]; intros v; cbn [fold_left In].
    - tauto.
    - rewrite IH. unfold set_server_caps, g_str_equal.
      destruct (String.eqb_spec BODY_HYPERLINKS d) as [<- | ne].
      + cbn. destruct v; cbn; tauto.
      + destruct (BODY =? d)%string, (BODY_MARKUP =? d)%string,
          (PERSISTENCE =? d)%string; destruct v; cbn; intuition congruence. }
  rewrite G. cbn. intuition discriminate.
Qed.

Lemma check_caps w info opts st :
  server_caps (check_github_notifications w info opts st) = server_caps st
  \/ server_caps (check_github_notifications w info opts st)
     = effective_caps info (server_caps st).
Proof.
  unfold check_github_notifications.
  destruct (curl_request (feed_outcome w) true (return_code_init w) st)
    as [[response rc] st1] eqn:E.
  assert (C1 : server_caps st1 = server_caps st).
  { unfold curl_request in E. destruct (feed_outcome w).
    - now injection E as _ _ <-.
    - now injection E as _ _ <-.
    - destruct (negb _ && negb _); [now injection E as _ _ <- |].
      destruct (negb _); now injection E as _ _ <-. }
  destruct response as [text |];
    [| left; now rewrite (proj1 (error_exit_frame rc st1))].
  destruct (json_loads w text) as [[| | | | | | items |] |];
    try (left; now rewrite (proj1 (error_exit_frame rc _))).
  destruct (iterate_spec w opts items 0%nat [] rc st1)
    as [ns [rc' [st2 [E2 [_ [_ [_ [C2 _]]]]]]]].
  rewrite E2. cbn [List.app].
  destruct (show_all_spec info opts ns st2) as [_ [_ [_ C3]]].
  rewrite C3, C2, C1. destruct ns; [now left | now right].
Qed.

Lemma effective_caps_other info v c :
  c <> CAP_BODY_HYPERLINKS -> get_cap (effective_caps info v) c = get_cap v c.
Proof.
  intros H. unfold effective_caps.
  destruct (is_xfce_notifyd info); [| reflexivity].
  destruct c; try reflexivity. now elim H.
Qed.

Lemma effective_caps_not_xfce info v :
  ~ (name info = "Xfce Notify Daemon" /\ vendor info = "Xfce") ->
  effective_caps info v = v.
Proof.
  intros H. unfold effective_caps.
  destruct (is_xfce_notifyd info) eqn:X; [| reflexivity].
  apply is_xfce_notifyd_true in X. contradiction.
Qed.

(** C9 (amended).  After negotiation the capability array is written in one
    place only: [show_notification] stores FALSE into the body-hyperlinks
    entry when the server is (Xfce Notify Daemon, Xfce).  Rendering and whole
    ticks leave the three other entries as negotiated for every identity,
    and leave the whole array as negotiated for every other identity. *)
Theorem caps_written_only_by_xfce_exception w info opts notif st :
  let shown_caps := server_caps (show_notification info opts notif st) in
  let tick_caps := server_caps (check_github_notifications w info opts st) in
  (forall c, c <> CAP_BODY_HYPERLINKS ->
             get_cap shown_caps c = get_cap (server_caps st) c
             /\ get_cap tick_caps c = get_cap (server_caps st) c)
  /\ (~ (name info = "Xfce Notify Daemon" /\ vendor info = "Xfce") ->
      shown_caps = server_caps st /\ tick_caps = server_caps st)
  /\ (name info = "Xfce Notify Daemon" /\ vendor info = "Xfce" ->
      get_cap shown_caps CAP_BODY_HYPERLINKS = false).
Proof.
  cbv zeta. rewrite show_notification_caps.
  split; [| split].
  - intros c Hc. split; [now apply effective_caps_other |].
    destruct (check_caps w info opts st) as [-> | ->];
      [reflexivity | now apply effective_caps_other].
  - intros H. split; [now apply effective_caps_not_xfce |].
    destruct (check_caps w info opts st) as [-> | ->];
      [reflexivity | now apply effective_caps_not_xfce].
  - intros H. apply effective_caps_hyperlinks_off. now right.
Qed.

(** C9, as stated, fails: rendering for xfce4-notifyd overwrites the
    negotiated body-hyperlinks entry. *)
Lemma xfce_rendering_overwrites_hyperlinks :
  name xfce_notifyd = "Xfce Notify Daemon" /\ vendor xfce_notifyd = "Xfce"
  /\ get_cap (server_caps (state_with all_caps)) CAP_BODY_HYPERLINKS = true
  /\ get_cap (server_caps (show_notification xfce_notifyd default_options fix_bug
                             (state_with all_caps))) CAP_BODY_HYPERLINKS = false
  /\ server_caps (show_notification xfce_notifyd default_options fix_bug
                    (state_with all_caps))
     <> server_caps (state_with all_caps).
Proof. repeat split; discriminate. Qed.

Lemma caps_written_only_by_xfce_exception_witness :
  (server_caps (show_notification plasma_1_0 default_options fix_bug (state_with all_caps))
   = all_caps
   /\ server_caps (check_github_notifications sample_world plasma_1_0 default_options
                     (state_with all_caps)) = all_caps)
  /\ get_cap (server_caps (show_notification xfce_notifyd default_options fix_bug
                             (state_with all_caps))) CAP_BODY_MARKUP = true
  /\ get_cap (server_caps (show_notification xfce_notifyd default_options fix_bug
                             (state_with all_caps))) CAP_BODY_HYPERLINKS = false.
Proof.
  split; [| split].
  - destruct (caps_written_only_by_xfce_exception sample_world plasma_1_0
                default_options fix_bug (state_with all_caps)) as [_ [H _]].
    apply H. intros [E _]. discriminate E.
  - destruct (caps_written_only_by_xfce_exception sample_world xfce_notifyd
                default_options fix_bug (state_with all_caps)) as [H _].
    apply (H CAP_BODY_MARKUP). discriminate.
  - destruct (caps_written_only_by_xfce_exception sample_world xfce_notifyd
                default_options fix_bug (state_with all_caps)) as [_ [_ H]].
    apply H. split; reflexivity.
Defined.

(** ** The polling interval *)

Lemma register_timer_period opt_interval st :
  fst (register_timer opt_interval st) = Z.max 45 opt_interval.
Proof.
  unfold register_timer. destruct (opt_interval <? 45) eqn:E; cbn [fst].
  - apply Z.ltb_lt in E. lia.
  - apply Z.ltb_ge in E. lia.
Qed.

(** For the values a [guint] option can hold, the check in [main] is the
    clamp the help text promises. *)
Lemma register_timer_unsigned arg st :
  0 <= arg < 2 ^ 32 ->
  (arg < 45 ->
   register_timer (store_opt_interval arg) st
   = (45, print_log LOG_INFO (MsgPollingInterval 45)
            (print_log LOG_ERR MsgMinimalInterval st)))
  /\ (45 <= arg ->
      register_timer (store_opt_interval arg) st
      = (arg, print_log LOG_INFO (MsgPollingInterval arg) st)).
Proof.
  intros R. unfold store_opt_interval. rewrite Z.mod_small by exact R.
  unfold register_timer. split; intros H.
  - apply Z.ltb_lt in H. now rewrite H.
  - apply Z.ltb_ge in H. now rewrite H.
Qed.

(** C8, at the failing input.  [--polling-interval=-5] is accepted by the
    G_OPTION_ARG_INT entry and lands in the unsigned [opt_interval] as
    4294967291: the test against 45 does not fire, no diagnostic is logged,
    and the timer is registered with that period instead of 45. *)
Theorem negative_interval_is_not_clamped :
  register_timer (store_opt_interval (-5)) (state_with all_caps)
  = (4294967291,
     print_log LOG_INFO (MsgPollingInterval 4294967291) (state_with all_caps)).
Proof. reflexivity. Qed.

(** * Further properties *)

(** ** set_server_caps *)

Lemma set_server_caps_entry data v c :
  get_cap (set_server_caps data v) c = true
  <-> get_cap v c = true \/ cap_name c = data.
Proof.
  unfold set_server_caps, g_str_equal.
  destruct (String.eqb_spec BODY data) as [<- | n1];
    [destruct v, c; cbn; intuition (discriminate || congruence) |].
  destruct (String.eqb_spec BODY_HYPERLINKS data) as [<- | n2];
    [destruct v, c; cbn; intuition (discriminate || congruence) |].
  destruct (String.eqb_spec BODY_MARKUP data) as [<- | n3];
    [destruct v, c; cbn; intuition (discriminate || congruence) |].
  destruct (String.eqb_spec PERSISTENCE data) as [<- | n4];
    [destruct v, c; cbn; intuition (discriminate || congruence) |].
  destruct c; cbn; intuition congruence.
Qed.

(** X1.  After negotiation an entry of the capability array is TRUE exactly
    when the server advertised the capability's name: other names are
    ignored, and order and repetitions do not matter. *)
Theorem negotiate_sets_exactly_advertised advertised c :
  get_cap (negotiate advertised) c = true <-> In (cap_name c) advertised.
Proof.
  unfold negotiate.
  assert (G : forall l v,
             get_cap (fold_left (fun v data => set_server_caps data v) l v) c = true
             <-> get_cap v c = true \/ In (cap_name c) l).
  { induction l as [|d l IH]; intros v; cbn [fold_left In].
    - tauto.
    - rewrite IH, set_server_caps_entry. intuition congruence. }
  rewrite G. destruct c; cbn; intuition discriminate.
Qed.

(** ** curl_request *)

(** X2.  [curl_request] returns a buffer, and not NULL, exactly when the
    transfer was performed and the status is 200, or 304 on a request made
    without the If-Modified-Since condition.  When at least one byte was
    received the buffer holds the received data; with no byte received it is
    the block as allocated, of which nothing is said. *)
Theorem curl_request_returns_buffer o pass code st :
  (fst (fst (curl_request o pass code st)) <> None
   <-> exists status text filetime,
       o = CurlPerformed status text filetime
       /\ (status = 200 \/ (status = 304 /\ pass = false)))
  /\ forall body,
       body <> "" ->
       fst (fst (curl_request o pass code st)) = Some body
       <-> exists status filetime,
           o = CurlPerformed status body filetime
           /\ (status = 200 \/ (status = 304 /\ pass = false)).
Proof.
  assert (G : forall body,
             fst (fst (curl_request o pass code st)) = Some body
             <-> exists status filetime,
                 o = CurlPerformed status body filetime
                 /\ (status = 200 \/ (status = 304 /\ pass = false))).
  { intros body.
    unfold curl_request, RESPONSE_CODE_OK, RESPONSE_CODE_NOT_MODIFIED.
    destruct o as [| err | status text filetime]; cbn [fst].
    - split; [discriminate | intros [s [f [E _]]]; discriminate].
    - split; [discriminate | intros [s [f [E _]]]; discriminate].
    - destruct (Z.eqb_spec status 200) as [-> | n200]; cbn [negb andb].
      + change (200 =? 304) with false. cbn [negb].
        destruct pass; cbn [fst]; split.
        * intros [= <-]. exists 200, filetime. auto.
        * intros [s [f [[= _ <- _] _]]]. reflexivity.
        * intros [= <-]. exists 200, filetime. auto.
        * intros [s [f [[= _ <- _] _]]]. reflexivity.
      + destruct (Z.eqb_spec status 304) as [-> | n304]; cbn [negb fst].
        * destruct pass; cbn [fst]; split.
          -- discriminate.
          -- intros [s [f [[= <- _ _] [H | [_ H]]]]]; discriminate.
          -- intros [= <-]. exists 304, filetime. auto.
          -- intros [s [f [[= _ <- _] _]]]. reflexivity.
        * split; [discriminate |].
          intros [s [f [[= <- _ _] [H | [H _]]]]]; contradiction. }
  split; [| intros body _; apply G].
  split.
  - intros N. destruct (fst (fst (curl_request o pass code st))) as [body |] eqn:E;
      [| now elim N].
    destruct (proj1 (G body) eq_refl) as [s [f [E' H]]]. exists s, body, f. auto.
  - intros [s [text [f [E H]]]].
    assert (R : fst (fst (curl_request o pass code st)) = Some text)
      by (apply G; exists s, f; auto).
    rewrite R. discriminate.
Qed.

(** X3.  [curl_request] writes [last_mod] on one path only: a request made
    with the condition and answered 200 stores the transfer's file time.
    Every other outcome, and every request made without the condition,
    leaves [last_mod] as it was. *)
Theorem curl_request_marker o pass code st :
  last_mod (snd (curl_request o pass code st))
  = match o with
    | CurlPerformed 200 _ filetime => if pass then filetime else last_mod st
    | _ => last_mod st
    end.
Proof.
  unfold curl_request, RESPONSE_CODE_OK, RESPONSE_CODE_NOT_MODIFIED.
  destruct o as [| err | status text filetime]; cbn [snd]; try reflexivity.
  destruct (Z.eqb_spec status 200) as [-> | n200]; cbn [negb andb].
  - change (200 =? 304) with false. cbn [negb]. now destruct pass.
  - assert (E : match status with
                | 200 => if pass then filetime else last_mod st
                | _ => last_mod st
                end = last_mod st).
    { destruct status as [| p | p]; try reflexivity.
      do 8 (destruct p; try reflexivity). now elim n200. }
    rewrite E.
    destruct (status =? 304); cbn [negb snd]; [| reflexivity].
    now destruct pass.
Qed.

(** X4.  [*code] receives the response code whenever the transfer is
    performed, whatever the status, and is left untouched when
    [curl_easy_init] or [curl_easy_perform] fails.  The call logs one
    LOG_ERR line when it returns NULL, except for a 304 answer to a
    conditional request, and nothing when it returns a buffer; it shows
    nothing and touches neither the capability array nor the files. *)
Theorem curl_request_code_and_log o pass code st :
  let '(response, code', st') := curl_request o pass code st in
  code' = match o with CurlPerformed status _ _ => status | _ => code end
  /\ (exists lines,
        journal st' = (journal st ++ lines)%list
        /\ Forall (fun line => fst line = LOG_ERR) lines
        /\ List.length lines
           = match response, o, pass with
             | Some _, _, _ => 0%nat
             | None, CurlPerformed 304 _ _, true => 0%nat
             | None, _, _ => 1%nat
             end)
  /\ shown st' = shown st /\ server_caps st' = server_caps st
  /\ tmp_files st' = tmp_files st.
Proof.
  unfold curl_request, RESPONSE_CODE_OK, RESPONSE_CODE_NOT_MODIFIED.
  destruct o as [| err | status text filetime].
  - split; [reflexivity |]. split; [| repeat split].
    eexists. split; [reflexivity |]. split; [repeat constructor | reflexivity].
  - split; [reflexivity |]. split; [| repeat split].
    eexists. split; [reflexivity |]. split; [repeat constructor | reflexivity].
  - destruct (Z.eqb_spec status 200) as [-> | n200]; cbn [negb andb].
    + change (200 =? 304) with false. cbn [negb].
      destruct pass; (split; [reflexivity |]); (split; [| repeat split]);
        exists []; rewrite app_nil_r; repeat split; constructor.
    + destruct (Z.eqb_spec status 304) as [-> | n304]; cbn [negb].
      * destruct pass; (split; [reflexivity |]); (split; [| repeat split]);
          exists []; rewrite app_nil_r; repeat split; constructor.
      * split; [reflexivity |]. split; [| repeat split].
        eexists. split; [reflexivity |]. split; [repeat constructor |].
        destruct status as [| p | p]; try reflexivity.
        do 9 (destruct p; try reflexivity). now elim n304.
Qed.

(** ** prepare_avatar *)

Lemma access_after_create path st : access_F_OK path (create_file path st) = true.
Proof.
  unfold access_F_OK, create_file. cbn [tmp_files existsb].
  now rewrite String.eqb_refl.
Qed.

Lemma access_print_log path p m st :
  access_F_OK path (print_log p m st) = access_F_OK path st.
Proof. reflexivity. Qed.

(** X5.  Whatever the first call met, a second [prepare_avatar] for the same
    user id finds the file, returns its path and changes nothing: it neither
    downloads nor logs.  This holds after a failed download too, since the
    file opened for writing is left behind. *)
Theorem prepare_avatar_second_call_is_cached o1 o2 id st :
  let st1 := snd (prepare_avatar o1 id st) in
  prepare_avatar o2 id st1 = (Some (tmp_png_path id), st1).
Proof.
  cbv zeta.
  assert (A : access_F_OK (tmp_png_path id) (snd (prepare_avatar o1 id st)) = true).
  { unfold prepare_avatar.
    destruct (access_F_OK (tmp_png_path id) st) eqn:E; cbn [negb snd]; [exact E |].
    destruct o1; cbn [snd]; rewrite ?access_print_log; apply access_after_create. }
  unfold prepare_avatar at 1. now rewrite A.
Qed.

(** X6.  [prepare_avatar] returns NULL exactly when the file is not cached
    and the transfer fails; otherwise it returns the path /tmp/ID.png.  It
    logs "downloading user avatar image" first exactly when the file is not
    cached, and afterwards the file exists in every case. *)
Theorem prepare_avatar_result o id st :
  let '(path, st') := prepare_avatar o id st in
  (path = None <-> access_F_OK (tmp_png_path id) st = false /\ o <> AvatarPerformed)
  /\ (path <> None -> path = Some (tmp_png_path id))
  /\ access_F_OK (tmp_png_path id) st' = true
  /\ (access_F_OK (tmp_png_path id) st = true -> st' = st)
  /\ (access_F_OK (tmp_png_path id) st = false ->
      exists more,
        journal st' = (journal st ++ (LOG_INFO, MsgDownloadingAvatar) :: more)%list).
Proof.
  unfold prepare_avatar.
  destruct (access_F_OK (tmp_png_path id) st) eqn:E; cbn [negb].
  - repeat split; try congruence; intros [H _]; discriminate.
  - destruct o; repeat split;
      rewrite ?access_print_log, ?access_after_create;
      try reflexivity; try congruence; try discriminate;
      try (intros [_ H]; now elim H);
      try (intros _; eexists; cbn [print_log create_file journal];
           rewrite <- ?app_assoc; reflexivity).
Qed.

Lemma string_length_append (a b : string) :
  String.length (a ++ b) = (String.length a + String.length b)%nat.
Proof. induction a as [|c a IH]; cbn; [reflexivity | now rewrite IH]. Qed.

Lemma append_cancel_r (s x y : string) : x ++ s = y ++ s -> x = y.
Proof.
  revert y. induction x as [|c x IH]; intros [|d y] H; cbn in H.
  - reflexivity.
  - apply (f_equal String.length) in H. cbn in H.
    rewrite string_length_append in H. lia.
  - apply (f_equal String.length) in H. cbn in H.
    rewrite string_length_append in H. lia.
  - injection H as -> H. f_equal. now apply IH.
Qed.

Lemma string_of_Z_injective (a b : Z) :
  NilZero.string_of_int (Z.to_int a) = NilZero.string_of_int (Z.to_int b) -> a = b.
Proof.
  intros H.
  assert (N : forall z, Z.to_int z <> Decimal.Pos Decimal.Nil
                        /\ Z.to_int z <> Decimal.Neg Decimal.Nil).
  { intros z. destruct z as [| p | p]; cbn; split; intros E;
      try discriminate; injection E as E;
      exact (DecimalPos.Unsigned.to_uint_nonnil p E). }
  apply (f_equal NilZero.int_of_string) in H.
  rewrite !NilZero.isi in H by apply N.
  injection H as H. apply (f_equal Z.of_int) in H.
  now rewrite !DecimalZ.of_to in H.
Qed.

(** X7.  Two user ids that differ as 32-bit values are cached under
    different file names, although ids from 2^31 on are printed as negative
    numbers. *)
Theorem tmp_png_path_distinct (a b : Z) :
  0 <= a < 2 ^ 32 -> 0 <= b < 2 ^ 32 ->
  a <> b -> tmp_png_path a <> tmp_png_path b.
Proof.
  intros Ha Hb Hab H. apply Hab. unfold tmp_png_path in H. cbv zeta in H.
  cbn [append] in H. injection H as H.
  apply append_cancel_r in H. apply string_of_Z_injective in H.
  revert H.
  change (2 ^ 32) with 4294967296 in *.
  change (Z.pow_pos 2 32) with 4294967296.
  change (Z.pow_pos 2 31) with 2147483648.
  destruct (Z.ltb_spec a 2147483648), (Z.ltb_spec b 2147483648); lia.
Qed.

Lemma tmp_png_path_distinct_witness :
  tmp_png_path 1 = "/tmp/1.png"
  /\ tmp_png_path 4294967295 = "/tmp/-1.png"
  /\ tmp_png_path 1 <> tmp_png_path 4294967295.
Proof.
  split; [reflexivity | split; [reflexivity |]].
  apply tmp_png_path_distinct; lia.
Defined.

(** ** write_callback *)

Lemma firstn_exact {A : Type} (a b : list A) (k : nat) :
  List.length a = k -> firstn k (a ++ b) = a.
Proof.
  intros <-. now rewrite firstn_app, Nat.sub_diag, firstn_all, firstn_O, app_nil_r.
Qed.

Lemma skipn_exact {A : Type} (a b : list A) (k : nat) :
  List.length a = k -> skipn k (a ++ b) = b.
Proof.
  intros <-. now rewrite skipn_app, Nat.sub_diag, skipn_all.
Qed.

(** One successful call on a chunk that holds [content] and one more byte. *)
Lemma write_callback_appends junk content last piece :
  Z.of_nat (List.length content + List.length piece) + 1 < 2 ^ 64 ->
  write_callback true junk piece 1 (Z.of_nat (List.length piece))
    {| data := Some (content ++ [last])%list;
       size := Z.of_nat (List.length content) |}
  = (Z.of_nat (List.length piece),
     {| data := Some ((content ++ piece) ++ [zero])%list;
        size := Z.of_nat (List.length (content ++ piece)%list) |},
     []).
Proof.
  intros B. unfold write_callback. cbn [data size].
  set (L := List.length content) in *. set (n := List.length piece) in *.
  assert (W1 : gsize_wrap (1 * Z.of_nat n) = Z.of_nat n)
    by (unfold gsize_wrap; rewrite Z.mod_small; lia).
  rewrite W1.
  assert (W2 : gsize_wrap (Z.of_nat L + Z.of_nat n + 1) = Z.of_nat (L + n + 1))
    by (unfold gsize_wrap; rewrite Z.mod_small; lia).
  assert (W3 : gsize_wrap (Z.of_nat L + Z.of_nat n) = Z.of_nat (L + n))
    by (unfold gsize_wrap; rewrite Z.mod_small; lia).
  rewrite W2, W3, length_app. fold L n.
  unfold realloc, memcpy_at, store_byte. rewrite !Nat2Z.id.
  set (fresh := repeat junk (L + n + 1)).
  set (R := firstn (L + n + 1) ((content ++ [last]) ++ fresh)).
  assert (LR : List.length R = (L + n + 1)%nat).
  { unfold R, fresh. rewrite length_firstn, !length_app, repeat_length.
    cbn [List.length]. fold L. lia. }
  assert (FR : firstn L R = content).
  { unfold R. rewrite firstn_firstn. replace (Init.Nat.min L (L + n + 1)) with L by lia.
    rewrite <- app_assoc. now apply firstn_exact. }
  rewrite FR. rewrite (firstn_all2 (n := n) piece) by (unfold n; lia).
  set (T := skipn (L + n) R).
  assert (LT : List.length T = 1%nat) by (unfold T; rewrite length_skipn; lia).
  replace (content ++ piece ++ T)%list with ((content ++ piece) ++ T)%list
    by now rewrite app_assoc.
  rewrite (firstn_exact (content ++ piece) T (L + n))
    by (rewrite length_app; reflexivity).
  rewrite (skipn_all2 (n := S (L + n))) by (rewrite !length_app; fold L n; lia).
  reflexivity.
Qed.

Lemma deliver_from junk pieces :
  forall content last,
    Z.of_nat (List.length content + List.length (List.concat pieces)) + 1 < 2 ^ 64 ->
    deliver junk pieces
      {| data := Some (content ++ [last])%list;
         size := Z.of_nat (List.length content) |}
    = (true,
       {| data := Some ((content ++ List.concat pieces) ++
                        [match pieces with [] => last | _ :: _ => zero end])%list;
          size := Z.of_nat (List.length (content ++ List.concat pieces)%list) |}).
Proof.
  induction pieces as [|piece rest IH]; intros content last B.
  - cbn. now rewrite app_nil_r.
  - cbn [deliver List.concat] in *. rewrite length_app in B.
    rewrite write_callback_appends by lia. rewrite Z.eqb_refl.
    rewrite IH by (rewrite length_app; lia).
    rewrite <- !app_assoc. destruct rest; reflexivity.
Qed.

(** X8.  Starting from the one-byte chunk of [curl_request], a body that
    libcurl delivers in any number of pieces is accepted piece by piece and
    ends up in the chunk as the pieces in order followed by a terminating
    zero byte, with [size] their total length, as long as that length plus
    one fits a [gsize]. *)
Theorem deliver_accumulates junk pieces :
  pieces <> [] ->
  Z.of_nat (List.length (List.concat pieces)) + 1 < 2 ^ 64 ->
  deliver junk pieces (chunk_init junk)
  = (true,
     {| data := Some (List.concat pieces ++ [zero])%list;
        size := Z.of_nat (List.length (List.concat pieces)) |}).
Proof.
  intros N B. unfold chunk_init.
  change (Some [junk]) with (Some (([] : list ascii) ++ [junk])%list).
  change 0 with (Z.of_nat (List.length ([] : list ascii))) at 1.
  rewrite deliver_from by exact B. destruct pieces; [now elim N | reflexivity].
Qed.

Lemma deliver_accumulates_witness :
  deliver "x"%char
    [list_ascii_of_string "[{"; []; list_ascii_of_string "}]"] (chunk_init "x"%char)
  = (true, {| data := Some (list_ascii_of_string "[{}]" ++ [zero])%list; size := 4 |}).
Proof.
  apply (deliver_accumulates "x"%char
           [list_ascii_of_string "[{"; []; list_ascii_of_string "}]"]).
  - discriminate.
  - cbn. lia.
Defined.


(** ** More on show_notification *)

(** X9.  What a notification looks like does not depend on what was shown
    before it: showing [second] after [first] adds the very notification
    that showing [second] alone would add, for every server identity (the
    Xfce write to the capability array included). *)
Theorem rendering_is_independent_of_history info opts first second st :
  exists e1 e2,
    shown (show_notification info opts first st) = (shown st ++ [e1])%list
    /\ shown (show_notification info opts second st) = (shown st ++ [e2])%list
    /\ shown (show_notification info opts second
                (show_notification info opts first st))
       = (shown st ++ [e1; e2])%list.
Proof.
  exists (presented opts (rendered_body info (server_caps st) first) first),
         (presented opts (rendered_body info (server_caps st) second) second).
  rewrite !show_notification_shown, show_notification_caps, rendered_body_effective.
  rewrite <- app_assoc. repeat split.
Qed.

(** X10.  When the server supports body text and hyperlinks and is not
    xfce4-notifyd, every body ends with the link to the repository, the url
    copied as it is. *)
Theorem link_line_closes_the_body info opts notif st :
  get_cap (server_caps st) CAP_BODY = true ->
  get_cap (server_caps st) CAP_BODY_HYPERLINKS = true ->
  ~ (name info = "Xfce Notify Daemon" /\ vendor info = "Xfce") ->
  exists body before,
    shown (show_notification info opts notif st)
    = (shown st ++ [presented opts body notif])%list
    /\ body = before ++ "<a href=" ++ repository_url notif ++ ">Link to Repository</a>".
Proof.
  intros B H X.
  exists (rendered_body info (server_caps st) notif).
  assert (E : exists before,
             rendered_body info (server_caps st) notif
             = before ++ "<a href=" ++ repository_url notif ++ ">Link to Repository</a>").
  { unfold rendered_body. rewrite effective_caps_not_xfce by exact X.
    unfold body_text. rewrite B, H.
    set (b := if negb _ then _ else TAG_BOLD).
    set (e := if negb _ then _ else TAG_BOLD_END).
    set (nl := if is_plasma_1_0 info then BR else LF).
    exists (b ++ "Repository:" ++ e ++ TAB ++ " " ++ repository notif ++ nl
            ++ b ++ "Type:" ++ e ++ TAB ++ TAB ++ " " ++ type notif ++ nl
            ++ b ++ "Title:" ++ e ++ TAB ++ TAB ++ " " ++ title notif ++ nl
            ++ b ++ "User:" ++ e ++ TAB ++ TAB ++ " " ++ user notif
            ++ nl ++ b ++ "Link:" ++ e ++ TAB ++ TAB ++ " ").
    repeat rewrite append_assoc. reflexivity. }
  destruct E as [before E]. exists before.
  split; [apply show_notification_shown | exact E].
Qed.

Lemma link_line_closes_the_body_witness :
  exists body before,
    shown (show_notification gnome_shell default_options fix_bug (state_with all_caps))
    = [presented default_options body fix_bug]
    /\ body = before ++ "<a href=http://x>Link to Repository</a>".
Proof.
  destruct (link_line_closes_the_body gnome_shell default_options fix_bug
              (state_with all_caps) eq_refl eq_refl) as [body [before [S E]]].
  - intros [E _]. discriminate E.
  - exists body, before. split; [exact S | exact E].
Defined.

(** X11.  A notification is shown whether or not the server supports
    persistence.  The only line [show_notification] can log is the INFO
    line about missing persistence support, and it logs it exactly when
    persistent notifications were asked for and the server lacks the
    capability; the transient hint is set exactly when they were not asked
    for. *)
Theorem persistence_is_best_effort info opts notif st :
  journal (show_notification info opts notif st)
  = (journal st
     ++ if opt_persistent opts && negb (get_cap (server_caps st) CAP_PERSISTENCE)
        then [(LOG_INFO, MsgNoPersistentSupport)] else [])%list
  /\ exists ev,
      shown (show_notification info opts notif st) = (shown st ++ [ev])%list
      /\ nn_transient ev = negb (opt_persistent opts)
      /\ nn_urgency ev = NOTIFY_URGENCY_NORMAL
      /\ nn_summary ev = SUMMARY
      /\ nn_icon ev = user_avatar notif.
Proof.
  split.
  - unfold show_notification.
    destruct (is_xfce_notifyd info), (opt_persistent opts),
      (cap_persistence (server_caps st)) eqn:P;
      cbn -[body_text]; rewrite ?P; cbn -[body_text];
      rewrite ?app_nil_r; reflexivity.
  - eexists. split; [apply show_notification_shown | repeat split].
Qed.

Lemma occurs_middle (a b c : string) : occurs b (a ++ b ++ c).
Proof. now exists a, c. Qed.

(** X12.  With body text supported, the repository name, the type, the
    title and the user login are all copied into the body character for
    character: nothing is escaped or cut. *)
Theorem fields_are_copied_verbatim info opts notif st :
  get_cap (server_caps st) CAP_BODY = true ->
  exists body,
    shown (show_notification info opts notif st)
    = (shown st ++ [presented opts body notif])%list
    /\ occurs (repository notif) body /\ occurs (type notif) body
    /\ occurs (title notif) body /\ occurs (user notif) body.
Proof.
  intros B. exists (rendered_body info (server_caps st) notif).
  split; [apply show_notification_shown |].
  unfold rendered_body, body_text. rewrite effective_caps_body, B.
  set (b := if negb _ then _ else TAG_BOLD).
  set (e := if negb _ then _ else TAG_BOLD_END).
  set (nl := if is_plasma_1_0 info then BR else LF).
  set (link := if get_cap _ CAP_BODY_HYPERLINKS then _ else _).
  repeat rewrite append_assoc.
  repeat split.
  - exists (b ++ "Repository:" ++ e ++ TAB ++ " "). eexists.
    repeat rewrite append_assoc. reflexivity.
  - exists (b ++ "Repository:" ++ e ++ TAB ++ " " ++ repository notif ++ nl
            ++ b ++ "Type:" ++ e ++ TAB ++ TAB ++ " "). eexists.
    repeat rewrite append_assoc. reflexivity.
  - exists (b ++ "Repository:" ++ e ++ TAB ++ " " ++ repository notif ++ nl
            ++ b ++ "Type:" ++ e ++ TAB ++ TAB ++ " " ++ type notif ++ nl
            ++ b ++ "Title:" ++ e ++ TAB ++ TAB ++ " "). eexists.
    repeat rewrite append_assoc. reflexivity.
  - exists (b ++ "Repository:" ++ e ++ TAB ++ " " ++ repository notif ++ nl
            ++ b ++ "Type:" ++ e ++ TAB ++ TAB ++ " " ++ type notif ++ nl
            ++ b ++ "Title:" ++ e ++ TAB ++ TAB ++ " " ++ title notif ++ nl
            ++ b ++ "User:" ++ e ++ TAB ++ TAB ++ " "). eexists.
    repeat rewrite append_assoc. reflexivity.
Qed.

Lemma fields_are_copied_verbatim_witness :
  exists body,
    shown (show_notification gnome_shell default_options bold_in_title
             (state_with text_only_caps))
    = [presented default_options body bold_in_title]
    /\ occurs "Strip <b> from titles" body.
Proof.
  destruct (fields_are_copied_verbatim gnome_shell default_options bold_in_title
              (state_with text_only_caps) eq_refl) as [body [S [_ [_ [T _]]]]].
  exists body. split; [exact S | exact T].
Defined.

(** ** More on check_github_notifications *)







(** X16.  An empty feed array is a quiet tick: nothing is shown, nothing is
    logged, no file is created; only [last_mod] moves to the file time of
    the response. *)
Theorem empty_feed_only_moves_marker w info opts st text filetime :
  feed_outcome w = CurlPerformed RESPONSE_CODE_OK text filetime ->
  json_loads w text = Some (JArray []) ->
  check_github_notifications w info opts st = set_last_mod filetime st.
Proof.
  intros F D. unfold check_github_notifications. rewrite F.
  cbn [curl_request]. rewrite Z.eqb_refl. cbn [negb andb].
  change (RESPONSE_CODE_OK =? RESPONSE_CODE_NOT_MODIFIED) with false. cbn [negb].
  rewrite D. reflexivity.
Qed.

Lemma empty_feed_only_moves_marker_witness :
  check_github_notifications
    {| feed_outcome := CurlPerformed 200 "[]" 1414886400;
       comment_outcome := sample_comment_outcome;
       avatar_outcome := fun _ _ => AvatarPerformed;
       json_loads := fun _ => Some (JArray []);
       json_error := sample_json_error;
       return_code_init := 0 |}
    gnome_shell default_options (state_with all_caps)
  = set_last_mod 1414886400 (state_with all_caps).
Proof.
  apply (empty_feed_only_moves_marker
           {| feed_outcome := CurlPerformed 200 "[]" 1414886400;
              comment_outcome := sample_comment_outcome;
              avatar_outcome := fun _ _ => AvatarPerformed;
              json_loads := fun _ => Some (JArray []);
              json_error := sample_json_error;
              return_code_init := 0 |}
           gnome_shell default_options (state_with all_caps) "[]" 1414886400);
    reflexivity.
Defined.

Lemma extends_refl {A : Type} (l : list A) : extends l l.
Proof. exists []. now rewrite app_nil_r. Qed.

Lemma extends_trans {A : Type} (a b c : list A) :
  extends a b -> extends b c -> extends a c.
Proof. intros [x ->] [y ->]. exists (x ++ y)%list. now rewrite app_assoc. Qed.

Lemma grows_refl st : grows st st.
Proof. repeat split; try apply extends_refl. now exists []. Qed.

Lemma grows_trans a b c : grows a b -> grows b c -> grows a c.
Proof.
  intros [J1 [S1 [f1 F1]]] [J2 [S2 [f2 F2]]].
  repeat split; try (eapply extends_trans; eassumption).
  exists (f2 ++ f1)%list. now rewrite F2, F1, app_assoc.
Qed.

Lemma grows_print_log p m st : grows st (print_log p m st).
Proof.
  repeat split; [now exists [(p, m)] | apply extends_refl | now exists []].
Qed.

Lemma grows_show n st : grows st (notify_notification_show n st).
Proof.
  repeat split; [apply extends_refl | now exists [n] | now exists []].
Qed.

Lemma grows_create_file path st : grows st (create_file path st).
Proof.
  repeat split; [apply extends_refl | apply extends_refl | now exists [path]].
Qed.

Lemma grows_set_last_mod t st : grows st (set_last_mod t st).
Proof. repeat split; try apply extends_refl. now exists []. Qed.

Lemma grows_set_server_cap c b st : grows st (set_server_cap c b st).
Proof. repeat split; try apply extends_refl. now exists []. Qed.

Create HintDb grows.
#[local] Hint Resolve grows_refl grows_print_log grows_show grows_create_file
  grows_set_last_mod grows_set_server_cap : grows.

Ltac grows_chain :=
  repeat (eapply grows_trans; [| solve [auto with grows]]); auto with grows.

Lemma grows_curl_request o pass rc st : grows st (snd (curl_request o pass rc st)).
Proof.
  unfold curl_request. destruct o; cbn [snd]; auto with grows.
  destruct (negb _ && negb _); cbn [snd]; auto with grows.
  destruct pass; [destruct (negb _) |]; cbn [snd]; auto with grows.
Qed.

Lemma grows_prepare_avatar o id st : grows st (snd (prepare_avatar o id st)).
Proof.
  unfold prepare_avatar. destruct (negb _); [| apply grows_refl].
  destruct o; cbn [snd]; grows_chain.
Qed.

Lemma grows_show_notification info opts notif st :
  grows st (show_notification info opts notif st).
Proof.
  unfold show_notification.
  destruct (is_xfce_notifyd info), (negb (opt_persistent opts));
    try destruct (negb (get_cap _ CAP_PERSISTENCE)); grows_chain.
Qed.

Lemma grows_error_exit rc st : grows st (error_exit rc st).
Proof.
  unfold error_exit. destruct (rc =? _); [apply grows_refl |].
  destruct (rc =? _); auto with grows.
Qed.

Lemma step_grows_bind {A B : Type} (m : step A) (k : A -> step B) :
  step_grows m -> (forall a, step_grows (k a)) -> step_grows (bind m k).
Proof.
  intros Hm Hk rc st. unfold bind. specialize (Hm rc st).
  destruct (m rc st) as [[[a |] rc'] st']; cbn [snd] in *; [| exact Hm].
  eapply grows_trans; [exact Hm | apply Hk].
Qed.

Lemma step_grows_ret {A : Type} (a : A) : step_grows (ret a).
Proof. intros rc st. apply grows_refl. Qed.

Lemma step_grows_expect_object j : step_grows (expect_object j).
Proof. intros rc st. unfold expect_object. destruct (json_is_object j); apply grows_refl. Qed.

Lemma step_grows_expect_string j : step_grows (expect_string j).
Proof. intros rc st. unfold expect_string. destruct (json_is_string j); apply grows_refl. Qed.

Lemma step_grows_expect_number j : step_grows (expect_number j).
Proof. intros rc st. unfold expect_number. destruct (json_is_number j); apply grows_refl. Qed.

Lemma step_grows_read_notification w opts i e :
  step_grows (read_notification w opts i e).
Proof.
  unfold read_notification.
  repeat (apply step_grows_bind;
          [first [apply step_grows_expect_object | apply step_grows_expect_string
                 | apply step_grows_expect_number] | intros ?]).
  apply step_grows_bind.
  { intros rc st. apply grows_curl_request. }
  intros curl_response. apply step_grows_bind.
  { intros rc st. unfold decode_comment.
    destruct (json_loads w curl_response); cbn [snd]; auto with grows. }
  intros root.
  repeat (apply step_grows_bind;
          [first [apply step_grows_expect_object | apply step_grows_expect_string
                 | apply step_grows_expect_number] | intros ?]).
  apply step_grows_bind; [| intros ?; apply step_grows_ret].
  unfold read_avatar. destruct (negb (opt_no_avatar opts)); [| apply step_grows_ret].
  apply step_grows_bind; [apply step_grows_expect_string | intros url rc st].
  match goal with
  | |- context [prepare_avatar ?o ?id st] =>
      pose proof (grows_prepare_avatar o id st) as G;
      destruct (prepare_avatar o id st)
  end.
  exact G.
Qed.

Lemma grows_iterate w opts items :
  forall i acc rc st, grows st (snd (iterate w opts i items acc rc st)).
Proof.
  induction items as [|e rest IH]; intros i acc rc st; cbn [iterate].
  - apply grows_refl.
  - pose proof (step_grows_read_notification w opts i e rc st) as G.
    destruct (read_notification w opts i e rc st) as [[[n |] rc'] st']; cbn [snd] in G;
      (eapply grows_trans; [| apply IH]);
      (eapply grows_trans; [exact G | apply grows_print_log]).
Qed.

Lemma grows_show_all info opts ns :
  forall st, grows st (show_all info opts ns st).
Proof.
  unfold show_all. induction ns as [|n ns IH]; intros st; cbn [fold_left].
  - apply grows_refl.
  - eapply grows_trans; [apply grows_show_notification | apply IH].
Qed.

Lemma grows_check w info opts st : grows st (check_github_notifications w info opts st).
Proof.
  unfold check_github_notifications.
  pose proof (grows_curl_request (feed_outcome w) true (return_code_init w) st) as G.
  destruct (curl_request _ _ _ st) as [[response rc] st1]. cbn [snd] in G.
  destruct response as [text |];
    [| eapply grows_trans; [exact G | apply grows_error_exit]].
  destruct (json_loads w text) as [[| | | | | | items |] |];
    try (eapply grows_trans; [exact G |];
         eapply grows_trans; [apply grows_print_log | apply grows_error_exit]).
  pose proof (grows_iterate w opts items 0%nat [] rc st1) as G2.
  destruct (iterate w opts 0 items [] rc st1) as [[ns rc'] st2]. cbn [snd] in G2.
  eapply grows_trans; [exact G |].
  eapply grows_trans; [exact G2 | apply grows_show_all].
Qed.

(** X17.  The daemon only ever adds to what it has produced: over any
    number of ticks, the lines already logged and the notifications already
    shown stay where they are, in order, and no cached avatar file is
    removed. *)
Theorem ticks_only_add info opts ticks_ st :
  let st' := run_ticks info opts ticks_ st in
  extends (journal st) (journal st')
  /\ extends (shown st) (shown st')
  /\ exists created, tmp_files st' = (created ++ tmp_files st)%list.
Proof.
  cbv zeta. change (grows st (run_ticks info opts ticks_ st)).
  unfold run_ticks. revert st.
  induction ticks_ as [|w rest IH]; intros st; cbn [fold_left].
  - apply grows_refl.
  - eapply grows_trans; [apply grows_check | apply IH].
Qed.




(** X19.  The loop composes: reading an array is reading a first part and
    then the rest, from the index, the list and the state the first part
    left.  Whatever was skipped or failed in the first part, the rest is
    read. *)
Theorem iterate_app w opts first rest :
  forall i acc rc st,
    iterate w opts i (first ++ rest) acc rc st
    = let '(acc1, rc1, st1) := iterate w opts i first acc rc st in
      iterate w opts (i + List.length first) rest acc1 rc1 st1.
Proof.
  induction first as [|e first IH]; intros i acc rc st.
  - cbn. now rewrite Nat.add_0_r.
  - cbn [List.app iterate List.length].
    destruct (read_notification w opts i e rc st) as [[[n |] rc'] st'];
      rewrite IH; replace (S i + List.length first)%nat
        with (i + S (List.length first))%nat by lia; reflexivity.
Qed.

Lemma check_last_mod w info opts st :
  last_mod (check_github_notifications w info opts st)
  = match feed_outcome w with
    | CurlPerformed 200 _ filetime => filetime
    | _ => last_mod st
    end.
Proof.
  unfold check_github_notifications.
  destruct (feed_outcome w) as [| err | status text filetime] eqn:F;
    cbn [curl_request];
    try (now rewrite (proj1 (proj2 (error_exit_frame _ _)))).
  unfold RESPONSE_CODE_OK, RESPONSE_CODE_NOT_MODIFIED.
  destruct (Z.eqb_spec status 200) as [-> | n200]; cbn [negb andb].
  - change (200 =? 304) with false. cbn [negb].
    destruct (json_loads w text) as [[| | | | | | items |] |];
      try (now rewrite (proj1 (proj2 (error_exit_frame _ _)))).
    destruct (iterate_spec w opts items 0%nat [] 200 (set_last_mod filetime st))
      as [ns [rc' [st2 [E2 [_ [_ [_ [_ [L2 _]]]]]]]]].
    rewrite E2. cbn [List.app].
    destruct (show_all_spec info opts ns st2) as [_ [L3 _]].
    now rewrite L3, L2.
  - assert (E : match status with
                | 200 => filetime
                | _ => last_mod st
                end = last_mod st).
    { destruct status as [| p | p]; try reflexivity.
      do 8 (destruct p; try reflexivity). now elim n200. }
    rewrite E.
    destruct (status =? 304); cbn [negb];
      now rewrite (proj1 (proj2 (error_exit_frame _ _))).
Qed.

(** X20.  Over any number of ticks, [last_mod] is the file time of the
    latest feed response with status 200, whether or not its body could be
    used, and the start value if there was none: neither 304, nor errors,
    nor the requests for comments and avatars move it. *)
Theorem marker_follows_fresh_responses info opts ticks_ st :
  last_mod (run_ticks info opts ticks_ st) = marker_after ticks_ (last_mod st).
Proof.
  unfold run_ticks. revert st.
  induction ticks_ as [|w rest IH]; intros st; cbn [fold_left marker_after].
  - reflexivity.
  - now rewrite IH, check_last_mod.
Qed.

(** X21.  Over any number of ticks the entries for body text, markup and
    persistence stay as negotiated, and for a server other than
    xfce4-notifyd the whole capability array does. *)
Theorem ticks_keep_negotiated_caps info opts ticks_ st :
  (forall c, c <> CAP_BODY_HYPERLINKS ->
             get_cap (server_caps (run_ticks info opts ticks_ st)) c
             = get_cap (server_caps st) c)
  /\ (~ (name info = "Xfce Notify Daemon" /\ vendor info = "Xfce") ->
      server_caps (run_ticks info opts ticks_ st) = server_caps st).
Proof.
  unfold run_ticks. revert st.
  induction ticks_ as [|w rest IH]; intros st; cbn [fold_left].
  - split; reflexivity.
  - destruct (IH (check_github_notifications w info opts st)) as [I1 I2].
    split.
    + intros c Hc. rewrite I1 by exact Hc.
      destruct (check_caps w info opts st) as [-> | ->];
        [reflexivity | now apply effective_caps_other].
    + intros X. rewrite I2 by exact X.
      destruct (check_caps w info opts st) as [-> | ->];
        [reflexivity | now apply effective_caps_not_xfce].
Qed.

Lemma ticks_keep_negotiated_caps_witness :
  get_cap (server_caps (run_ticks xfce_notifyd no_avatar_options
                          [sample_world; sample_world] (state_with all_caps)))
          CAP_BODY_MARKUP = true
  /\ server_caps (run_ticks gnome_shell no_avatar_options
                    [sample_world; sample_world] (state_with all_caps)) = all_caps.
Proof.
  split.
  - destruct (ticks_keep_negotiated_caps xfce_notifyd no_avatar_options
                [sample_world; sample_world] (state_with all_caps)) as [H _].
    apply (H CAP_BODY_MARKUP). discriminate.
  - destruct (ticks_keep_negotiated_caps gnome_shell no_avatar_options
                [sample_world; sample_world] (state_with all_caps)) as [_ H].
    apply H. intros [E _]. discriminate E.
Defined.

Lemma read_notification_avatar w opts i e rc st :
  opt_no_avatar opts = false ->
  match read_notification w opts i e rc st with
  | (Some n, _, st') =>
      user_avatar n = fst (element_avatar w i e st)
      /\ st' = snd (element_avatar w i e st)
  | (None, _, _) => True
  end.
Proof.
  intros O.
  unfold read_notification, element_avatar, comment_user, comment_root, comment_url.
  cbv zeta.
  rewrite bind_expect_object.
  destruct (json_is_object (Some e)); [| exact I].
  rewrite bind_expect_string.
  destruct (json_is_string (json_object_get (Some e) "reason")); [| exact I].
  rewrite bind_expect_object.
  destruct (json_is_object (json_object_get (Some e) "subject")); [| exact I].
  rewrite bind_expect_string.
  destruct (json_is_string (json_object_get (json_object_get (Some e) "subject") "type"));
    [| exact I].
  rewrite bind_expect_string.
  destruct (json_is_string (json_object_get (json_object_get (Some e) "subject") "title"));
    [| exact I].
  rewrite bind_expect_object.
  destruct (json_is_object (json_object_get (Some e) "repository")); [| exact I].
  rewrite bind_expect_string.
  destruct (json_is_string (json_object_get (json_object_get (Some e) "repository") "name"));
    [| exact I].
  rewrite bind_expect_string.
  destruct (json_is_string (json_object_get (json_object_get (Some e) "repository") "html_url"));
    [| exact I].
  rewrite bind_expect_string.
  destruct (json_is_string
              (json_object_get (json_object_get (Some e) "subject") "latest_comment_url"));
    [| exact I].
  unfold bind at 1, request_comment, curl_request.
  destruct (comment_outcome w i _) as [| err | code text filetime];
    [exact I | exact I |].
  unfold RESPONSE_CODE_OK, RESPONSE_CODE_NOT_MODIFIED.
  destruct (code =? 200) eqn:E200; destruct (code =? 304) eqn:E304;
    cbn [negb andb orb]; try exact I.
  all: unfold bind at 1, decode_comment.
  all: destruct (json_loads w text) as [root |]; [| exact I].
  all: rewrite bind_expect_object.
  all: destruct (json_is_object (json_object_get (Some root) "user")); [| exact I].
  all: rewrite bind_expect_string.
  all: destruct (json_is_string (json_object_get (json_object_get (Some root) "user") "login"));
    [| exact I].
  all: rewrite bind_expect_number.
  all: destruct (json_is_number (json_object_get (json_object_get (Some root) "user") "id"));
    [| exact I].
  all: unfold bind at 1, read_avatar; rewrite O; cbn [negb].
  all: rewrite bind_expect_string.
  all: destruct (json_is_string
                   (json_object_get (json_object_get (Some root) "user") "avatar_url"));
    [| exact I].
  all: match goal with
       | |- context [prepare_avatar ?o ?id ?s] => destruct (prepare_avatar o id s)
       end.
  all: cbn; split; reflexivity.
Qed.

(** X22.  With avatars shown, a well-formed element is resolved whatever
    happens to its avatar: the notification [read_notification] yields
    carries what [prepare_avatar] answers for the user id and avatar url of
    the enrichment (the cached path, or NULL after a failed download), so a
    broken download costs the icon, not the notification. *)
Theorem avatar_failure_keeps_the_notification w opts i e rc st :
  opt_no_avatar opts = false ->
  well_formed w opts (i, e) = true ->
  exists n rc',
    read_notification w opts i e rc st
    = (Some n, rc', snd (element_avatar w i e st))
    /\ notification_key n = element_key w (i, e)
    /\ user_avatar n = fst (element_avatar w i e st).
Proof.
  intros O W.
  pose proof (read_notification_avatar w opts i e rc st O) as A.
  destruct (read_notification_spec w opts i e rc st) as [r [rc' [st1 [E [_ P]]]]].
  rewrite E in A. destruct r as [n |]; [| congruence].
  destruct A as [A1 A2]. destruct P as [_ [K _]].
  exists n, rc'. rewrite E, A2. repeat split; assumption.
Qed.

Lemma avatar_failure_keeps_the_notification_witness :
  exists n rc' st',
    read_notification
      {| feed_outcome := CurlPerformed 200 "feed" 0;
         comment_outcome := sample_comment_outcome;
         avatar_outcome := fun _ _ => AvatarPerformFailed "Couldn't connect to server";
         json_loads := sample_json_loads;
         json_error := sample_json_error;
         return_code_init := 0 |}
      default_options 0 pull_request_element 200 (state_with all_caps)
    = (Some n, rc', st')
    /\ notification_key n = ("r", "http://x", "PullRequest", "Fix bug", "alice", "mention")
    /\ user_avatar n = None.
Proof.
  destruct (avatar_failure_keeps_the_notification
              {| feed_outcome := CurlPerformed 200 "feed" 0;
                 comment_outcome := sample_comment_outcome;
                 avatar_outcome :=
                   fun _ _ => AvatarPerformFailed "Couldn't connect to server";
                 json_loads := sample_json_loads;
                 json_error := sample_json_error;
                 return_code_init := 0 |}
              default_options 0%nat pull_request_element 200 (state_with all_caps)
              eq_refl eq_refl) as [n [rc' [E [K A]]]].
  exists n, rc'. eexists. split; [exact E | split; [exact K | exact A]].
Defined.

(** ** main *)





(** ** Ticks that stay within what C defines *)

(** X26.  When the feed is fetched and decodes to an array with N well-formed
    and M malformed elements, and the tick stays within what C defines (no
    empty buffer is decoded, no logged line is an undefined call of syslog),
    the tick shows exactly N notifications, built from the well-formed
    elements in array order, logs exactly M "invalid notification" lines, and
    N + M is the size of the array: no malformed element stops the batch. *)
Theorem defined_batch_renders_well_formed_elements w info opts st text filetime items :
  feed_outcome w = CurlPerformed RESPONSE_CODE_OK text filetime ->
  json_loads w text = Some (JArray items) ->
  tick_defined w info opts st = true ->
  let good := filter (well_formed w opts) (enumerate_from 0 items) in
  let bad := filter (malformed w opts) (enumerate_from 0 items) in
  let st' := check_github_notifications w info opts st in
  exists ns,
    shown st'
    = (shown st
       ++ map (fun n => presented opts (rendered_body info (server_caps st) n) n) ns)%list
    /\ List.length ns = List.length good
    /\ map notification_key ns = map (element_key w) good
    /\ invalid_count (journal st') = (invalid_count (journal st) + List.length bad)%nat
    /\ (List.length good + List.length bad)%nat = List.length items.
Proof.
  intros F D _ good bad st'.
  destruct (check_on_array w info opts st text filetime items F D)
    as [ns [S [K [_ [J _]]]]].
  exists ns. split; [exact S |]. split.
  - rewrite <- (length_map notification_key), K. apply length_map.
  - split; [exact K |]. split; [exact J |].
    unfold good, bad, malformed.
    rewrite filter_partition_length. apply length_enumerate_from.
Qed.

Lemma defined_batch_renders_well_formed_elements_witness :
  exists ns,
    shown (check_github_notifications sample_world gnome_shell no_avatar_options
             (state_with all_caps))
    = map (fun n => presented no_avatar_options (rendered_body gnome_shell all_caps n) n) ns
    /\ List.length ns = 2%nat
    /\ map notification_key ns
       = [ ("r", "http://x", "PullRequest", "Fix bug", "alice", "mention");
           ("s", "http://y", "Issue", "Docs", "bob", "subscribed") ]
    /\ invalid_count
         (journal (check_github_notifications sample_world gnome_shell no_avatar_options
                     (state_with all_caps))) = 1%nat.
Proof.
  destruct (defined_batch_renders_well_formed_elements sample_world gnome_shell
              no_avatar_options (state_with all_caps) "feed" 1414886400 sample_items
              eq_refl eq_refl eq_refl)
    as [ns [S [L [K [J _]]]]].
  exists ns. split; [exact S |]. split; [exact L |]. split; [exact K | exact J].
Defined.

(** ** The avatar option *)

Lemma bind_ext {A B : Type} (m : step A) (k k' : A -> step B) rc st :
  (forall a rc' st', k a rc' st' = k' a rc' st') ->
  bind m k rc st = bind m k' rc st.
Proof.
  intros H. unfold bind. destruct (m rc st) as [[[a |] rc'] st']; [apply H | reflexivity].
Qed.

Lemma assoc_remove_member key k members :
  String.eqb k key = false ->
  assoc key (remove_member k members) = assoc key members.
Proof.
  intros N. induction members as [|[a x] rest IH]; [reflexivity |].
  cbn [remove_member filter fst assoc].
  destruct (String.eqb_spec a k) as [-> | Hk]; cbn [negb].
  - rewrite N. exact IH.
  - cbn [assoc]. destruct (String.eqb a key); [reflexivity | exact IH].
Qed.

Lemma user_is_object_with_avatar_url v root :
  json_is_object (json_object_get (Some (with_avatar_url v root)) "user")
  = json_is_object (json_object_get (Some root) "user").
Proof.
  destruct root as [| | | | | | items | members]; try reflexivity.
  cbn [with_avatar_url json_object_get].
  destruct (assoc "user" members) as [[| | | | | | items | user] |] eqn:U;
    cbn [json_object_get]; rewrite ?U; reflexivity.
Qed.

Lemma user_member_with_avatar_url v root key :
  String.eqb "avatar_url" key = false ->
  json_object_get (json_object_get (Some (with_avatar_url v root)) "user") key
  = json_object_get (json_object_get (Some root) "user") key.
Proof.
  intros N. destruct root as [| | | | | | items | members]; try reflexivity.
  cbn [with_avatar_url json_object_get].
  destruct (assoc "user" members) as [[| | | | | | items | user] |] eqn:U;
    cbn [json_object_get]; rewrite ?U; try reflexivity.
  cbn [assoc]. change (String.eqb "user" "user") with true. cbn [json_object_get].
  destruct v as [x |]; cbn [assoc]; rewrite ?N; now apply assoc_remove_member.
Qed.

Lemma bind_decode_comment {A : Type} w text (k : json -> step A) rc st :
  bind (decode_comment w text) k rc st
  = match json_loads w text with
    | Some root => k root rc st
    | None =>
        (None, rc,
         print_log LOG_ERR
           (MsgJsonError (fst (json_error w text)) (snd (json_error w text))) st)
    end.
Proof. unfold bind, decode_comment. now destruct (json_loads w text). Qed.

(** X27.  With avatars disabled the loop never looks at [avatar_url]:
    whatever the user object of an enrichment answer holds under that name
    (a string, a value of another type, nothing), the element is read to the
    same result, with the same state and the same [return_code]. *)
Theorem avatar_url_is_not_read_without_avatars v w opts i e rc st :
  opt_no_avatar opts = true ->
  read_notification (replace_avatar_url v w) opts i e rc st
  = read_notification w opts i e rc st.
Proof.
  intros O. unfold read_notification. cbv zeta.
  cbn [replace_avatar_url comment_outcome].
  do 9 (apply bind_ext; intros).
  apply bind_ext. intros curl_response rc1 st1.
  rewrite !bind_decode_comment.
  cbn [replace_avatar_url json_loads json_error].
  destruct (json_loads w curl_response) as [root |]; cbn [option_map]; [| reflexivity].
  rewrite !bind_expect_object, user_is_object_with_avatar_url.
  destruct (json_is_object _); [| reflexivity].
  rewrite !bind_expect_string, (user_member_with_avatar_url v root "login") by reflexivity.
  destruct (json_is_string _); [| reflexivity].
  rewrite !bind_expect_number, (user_member_with_avatar_url v root "id") by reflexivity.
  destruct (json_is_number _); [| reflexivity].
  unfold read_avatar. rewrite O. cbn [negb]. reflexivity.
Qed.

Lemma avatar_url_is_not_read_without_avatars_witness :
  read_notification (replace_avatar_url None sample_world) no_avatar_options 0
    pull_request_element 200 (state_with all_caps)
  = (Some fix_bug, 200, state_with all_caps)
  /\ read_notification (replace_avatar_url (Some (JInteger 5)) sample_world)
       no_avatar_options 0 pull_request_element 200 (state_with all_caps)
     = (Some fix_bug, 200, state_with all_caps).
Proof.
  split.
  - rewrite (avatar_url_is_not_read_without_avatars None sample_world no_avatar_options
               0%nat pull_request_element 200 (state_with all_caps) eq_refl).
    vm_compute. reflexivity.
  - rewrite (avatar_url_is_not_read_without_avatars (Some (JInteger 5)) sample_world
               no_avatar_options 0%nat pull_request_element 200 (state_with all_caps)
               eq_refl).
    vm_compute. reflexivity.
Defined.

(** X28.  An element whose required fields are present and whose enrichment
    has a user object with a string login and a numeric id, but no string
    [avatar_url]: with avatars disabled it is resolved into a notification
    without avatar and nothing is shown or marked invalid while it is read;
    with avatars enabled it takes [goto skip], nothing is appended and
    "invalid notification" is logged. *)
Theorem record_without_avatar_url w opts i e acc rc st :
  required_fields_present e = true ->
  well_formed_user no_avatar_options (comment_user w i e) = true ->
  has_string (comment_user w i e) "avatar_url" = false ->
  (opt_no_avatar opts = true ->
   exists n rc' st',
     read_notification w opts i e rc st = (Some n, rc', st')
     /\ user_avatar n = None
     /\ notification_key n = element_key w (i, e)
     /\ quiet st st')
  /\ (opt_no_avatar opts = false ->
      exists rc' st',
        read_notification w opts i e rc st = (None, rc', st')
        /\ iterate w opts i [e] acc rc st
           = (acc, rc', print_log LOG_INFO MsgInvalidNotification st')).
Proof.
  intros R U A. split; intros O.
  - assert (W : well_formed w opts (i, e) = true)
      by now apply well_formed_without_avatar.
    destruct (read_notification_spec w opts i e rc st) as [r [rc' [st1 [E [Q P]]]]].
    destruct r as [n |]; [| congruence].
    destruct P as [_ [K V]].
    exists n, rc', st1. split; [exact E |]. split; [now apply V |]. split; [exact K | exact Q].
  - assert (W : well_formed w opts (i, e) = false)
      by now apply malformed_without_avatar_url.
    destruct (read_notification_spec w opts i e rc st) as [r [rc' [st1 [E [_ P]]]]].
    destruct r as [n |]; [destruct P; congruence |].
    exists rc', st1. split; [exact E |]. cbn [iterate]. now rewrite E.
Qed.

Lemma record_without_avatar_url_witness :
  (exists n rc' st',
      read_notification sample_world no_avatar_options 2 issue_element 200
        (state_with all_caps) = (Some n, rc', st')
      /\ user_avatar n = None
      /\ notification_key n = ("s", "http://y", "Issue", "Docs", "bob", "subscribed"))
  /\ exists rc' st',
      iterate sample_world default_options 2 [issue_element] [] 200 (state_with all_caps)
      = ([], rc', print_log LOG_INFO MsgInvalidNotification st').
Proof.
  split.
  - destruct (record_without_avatar_url sample_world no_avatar_options 2%nat issue_element
                [] 200 (state_with all_caps) eq_refl eq_refl eq_refl) as [H _].
    destruct (H eq_refl) as [n [rc' [st' [E [A [K _]]]]]].
    exists n, rc', st'. split; [exact E | split; [exact A | exact K]].
  - destruct (record_without_avatar_url sample_world default_options 2%nat issue_element
                [] 200 (state_with all_caps) eq_refl eq_refl eq_refl) as [_ H].
    destruct (H eq_refl) as [rc' [st' [_ E]]].
    exists rc', st'. exact E.
Defined.

(** X29.  A user id that fits [guint32] is read exactly: the passage
    through [double] in [json_number_value] loses nothing below 2 ^ 53. *)
Theorem user_id_in_range (z : Z) :
  0 <= z < 2 ^ 32 -> json_user_id_of (Some (JInteger z)) = z.
Proof.
  intros [L H]. unfold json_user_id_of, double_of_integer, guint32_of_double.
  rewrite Z.abs_eq by exact L.
  assert (B : Z.log2 z - 52 <= 0).
  { destruct (Z.eq_dec z 0) as [-> | N]; [cbn; lia |].
    assert (Z.log2 z < 32) by (apply Z.log2_lt_pow2; lia). lia. }
  apply Z.leb_le in B. rewrite B.
  assert (R : (- 2 ^ 63 <=? z) && (z <? 2 ^ 63) = true).
  { apply andb_true_iff. split; [apply Z.leb_le | apply Z.ltb_lt]; lia. }
  rewrite R. apply Z.mod_small. lia.
Qed.

Lemma user_id_in_range_witness :
  json_user_id_of (Some (JInteger 4294967295)) = 4294967295.
Proof. apply user_id_in_range. lia. Defined.
